(** * RAGMeUp provenance: document attribution

    A shallow embedding of [server/provenance.py]: the token-span locator
    [find_sublist_positions], the attention-based attributor
    [compute_attention] and the embedding-similarity attributor
    [DocumentSimilarityAttribution.compute_similarity].

    Python integers are [Z]; token sequences are [list Z]; a raised
    exception is the [Raise] case of [result].  The attention weights are
    exact rationals [Q].  The similarity attributor is given twice: over an
    arithmetic [arith], whose instances [binary32] and [binary64] are the
    IEEE 754 formats with round to nearest even, and, as
    [compute_similarity], at the exact rationals, which is the instance
    [exact] of the former; what is proved of [compute_similarity] alone is
    proved of the algorithm without rounding. *)

From Stdlib Require Import ZArith QArith Qabs Lqa Lia Ascii String SpecFloat.
From stdpp Require Import base tactics option list strings.

Local Open Scope Z_scope.

(** ** Exceptions *)

Inductive exn : Type :=
| ValueError (msg : string).

Inductive result (A : Type) : Type :=
| Return (a : A)
| Raise (e : exn).
Arguments Return {A} a.
Arguments Raise {A} e.

#[global] Instance result_ret : MRet result := fun A a => Return a.
#[global] Instance result_bind : MBind result := fun A B k m =>
  match m with
  | Return a => k a
  | Raise e => Raise e
  end.

(** ** Python sequences *)

Abbreviation len l := (Z.of_nat (length l)) (only parsing).

(** A slice bound [i] on an axis of length [n]: a negative bound counts from
    the end, and every bound is clamped to [0, n]. *)
Definition slice_bound (n i : Z) : Z :=
  if i <? 0 then Z.max 0 (i + n) else Z.min i n.

(** [l[a:b]] *)
Definition slice {A : Type} (l : list A) (a b : Z) : list A :=
  let lo := slice_bound (len l) a in
  let hi := slice_bound (len l) b in
  take (Z.to_nat (hi - lo)) (drop (Z.to_nat lo) l).

(** ** The span locator *)

Definition tokens := list Z.

(** The [for i in range(...)] loop of [find_sublist_positions], entered at
    index [i] with [todo] iterations left. *)
Fixpoint find_sublist_loop (thread_tokens part_tokens : tokens)
    (i : Z) (todo : nat) : result (Z * Z) :=
  match todo with
  | O => Raise (ValueError "Sublist not found")
  | S todo' =>
      let len_part := len part_tokens in
      if decide (slice thread_tokens i (i + len_part) = part_tokens)
      then Return (i, i + len_part - 1)
      else find_sublist_loop thread_tokens part_tokens (i + 1) todo'
  end.

Definition find_sublist_positions (thread_tokens part_tokens : tokens)
    : result (Z * Z) :=
  let len_thread := len thread_tokens in
  let len_part := len part_tokens in
  find_sublist_loop thread_tokens part_tokens 0
    (Z.to_nat (len_thread - len_part + 1)).


(** [part_tokens] occurs in [thread_tokens] at offset [k]: the thread is a
    prefix of [k] tokens, then the part, then a suffix. *)
Definition occurs_at (H N : tokens) (k : Z) : Prop :=
  ∃ pre post, H = pre ++ N ++ post ∧ len pre = k.

(** ** Numbers and tensors *)

(** [x > y] *)
Definition Qgtb (x y : Q) : bool :=
  match (x ?= y)%Q with Gt => true | _ => false end.

(** The builtin [sum(xs)] without rounding: start from [0] and add from
    the left. *)
Definition py_sum (xs : list Q) : Q := foldl Qplus 0%Q xs.

Definition sumQ (xs : list Q) : Q := foldr Qplus 0%Q xs.

(** One layer's attention for the single batch item, [attentions[0]]:
    indexed [head][query position][key position]. *)
Definition tensor := list (list (list Q)).

(** [t.sum().item()] *)
Definition tensor_sum (t : tensor) : Q :=
  sumQ (map (λ head, sumQ (map sumQ head)) t).

(** [attentions[0, :, r0:r1, c0:c1]] *)
Definition tensor_slice (t : tensor) (r0 r1 c0 c1 : Z) : tensor :=
  map (λ head, map (λ row, slice row c0 c1) (slice head r0 r1)) t.

(** ** Configuration *)

Definition environ := string → option string.

(** [include_query] as both attributors compute it from [os.getenv]. *)
Definition include_query_of (getenv : environ) : bool :=
  if decide (getenv "attribute_include_query" = Some "False") then false else true.

(** ** The attention attributor *)

Section attention.
(** [os.getenv], [tokenizer.encode(_, add_special_tokens=False)] and the
    last layer's attention of [model] on the encoded thread, for batch
    item 0. *)
Variable getenv : environ.
Variable encode : string → tokens.
Variable attention : tokens → tensor.

Local Open Scope Q_scope.

(** The loop filling [context_offsets]. *)
Fixpoint context_offsets_loop (thread_tokens : tokens) (context : list string)
    (context_offsets : list (Z * Z)) : result (list (Z * Z)) :=
  match context with
  | [] => Return context_offsets
  | part :: context' =>
      let part_tokens := encode part in
      span ← find_sublist_positions thread_tokens part_tokens;
      context_offsets_loop thread_tokens context' (context_offsets ++ [span])
  end.

(** One iteration of the loop over [context_offsets]: first the combined
    attention [doc_attention_sum] of the document at [span], *)
Definition doc_attention_sum (attentions : tensor) (include_query : bool)
    (query_start query_end answer_start answer_end : Z)
    (span : Z * Z) : Q :=
  let '(start, end_) := span in
  let answer_to_doc_attention :=
    tensor_sum (tensor_slice attentions answer_start answer_end start end_) in
  let doc_to_answer_attention :=
    tensor_sum (tensor_slice attentions start end_ answer_start answer_end) in
  if include_query then
    let query_to_doc_attention :=
      tensor_sum (tensor_slice attentions query_start query_end start end_) in
    let doc_to_query_attention :=
      tensor_sum (tensor_slice attentions start end_ query_start query_end) in
    query_to_doc_attention + answer_to_doc_attention +
    doc_to_query_attention + doc_to_answer_attention
  else
    answer_to_doc_attention + doc_to_answer_attention.

(** then [normalized_attention], the value appended to [doc_attentions]. *)
Definition doc_attention (attentions : tensor) (include_query : bool)
    (query_start query_end answer_start answer_end : Z)
    (total_attention_sum : Q) (span : Z * Z) : Q :=
  let doc_attention_sum :=
    doc_attention_sum attentions include_query query_start query_end
      answer_start answer_end span in
  if Qgtb total_attention_sum 0 then doc_attention_sum / total_attention_sum
  else 0.

Definition compute_attention (thread query : string) (context : list string)
    (answer : string) : result (list Q) :=
  let include_query := include_query_of getenv in
  let thread_tokens := encode thread in
  let attentions := attention thread_tokens in
  let query_tokens := encode query in
  let answer_tokens := encode answer in
  '(query_start, query_end) ← find_sublist_positions thread_tokens query_tokens;
  '(answer_start, answer_end) ← find_sublist_positions thread_tokens answer_tokens;
  context_offsets ← context_offsets_loop thread_tokens context [];
  let total_attention_sum := tensor_sum attentions in
  let doc_attentions :=
    foldl (λ doc_attentions span,
             doc_attentions ++
             [doc_attention attentions include_query query_start query_end
                answer_start answer_end total_attention_sum span])
          [] context_offsets in
  Return doc_attentions.
End attention.

(** ** The embedding attributor, without rounding *)

Section similarity.
(** [os.getenv], the sentence encoder [self.model.encode] on one text, and
    sklearn's [cosine_similarity] between two vectors. *)
Variable getenv : environ.
Variable Embedding : Type.
Variable embed : string → Embedding.
Variable cosine_similarity : Embedding → Embedding → Q.

Local Open Scope Q_scope.

Definition compute_similarity (query : string) (context : list string)
    (answer : string) : list Q :=
  let include_query := include_query_of getenv in
  let answer_embedding := embed answer in
  let context_embeddings := map embed context in
  (* [query_embedding] is bound only when [include_query] is set *)
  let query_embedding := if include_query then Some (embed query) else None in
  let similarity_scores :=
    foldl (λ similarity_scores doc_embedding,
             let doc_answer_similarity :=
               cosine_similarity doc_embedding answer_embedding in
             let similarity_score :=
               match query_embedding with
               | Some query_embedding =>
                   let doc_query_similarity :=
                     cosine_similarity doc_embedding query_embedding in
                   (doc_answer_similarity + doc_query_similarity) / 2
               | None => doc_answer_similarity
               end in
             similarity_scores ++ [similarity_score])
          [] context_embeddings in
  let total_similarity := py_sum similarity_scores in
  if Qgtb total_similarity 0
  then map (λ score, score / total_similarity) similarity_scores
  else similarity_scores.
End similarity.

Arguments compute_similarity getenv {Embedding} embed cosine_similarity
  query context answer.

(** ** The embedding attributor over float arithmetic *)

(** The numbers [compute_similarity] computes with, and the operations it
    applies to them: [0] (where [sum] starts), [2], [+], [/] and [>]. *)
Record arith : Type := Arith {
  num : Type;
  zero : num;
  two : num;
  add : num → num → num;
  div : num → num → num;
  gt : num → num → bool
}.

(** Arithmetic without rounding. *)
Definition exact : arith :=
  {| num := Q; zero := 0%Q; two := 2%Q;
     add := Qplus; div := Qdiv; gt := Qgtb |}.

(** IEEE 754 arithmetic with [prec] bits of precision and exponents below
    [emax], rounding to nearest, ties to even; a comparison with NaN is
    false. *)
Definition ieee (prec emax : Z) : arith :=
  {| num := spec_float;
     zero := S754_zero false;
     two := binary_normalize prec emax 2 0 false;
     add := SFadd prec emax;
     div := SFdiv prec emax;
     gt := λ x y, SFltb y x |}.

Definition binary32 : arith := ieee 24 128.
Definition binary64 : arith := ieee 53 1024.

Section similarity_with.
Variable ar : arith.
Variable getenv : environ.
Variable Embedding : Type.
Variable embed : string → Embedding.
Variable cosine_similarity : Embedding → Embedding → num ar.

(** The builtin [sum(xs)] on floats. *)
Definition sum_with (xs : list (num ar)) : num ar :=
  foldl (add ar) (zero ar) xs.

Definition compute_similarity_with (query : string) (context : list string)
    (answer : string) : list (num ar) :=
  let include_query := include_query_of getenv in
  let answer_embedding := embed answer in
  let context_embeddings := map embed context in
  (* [query_embedding] is bound only when [include_query] is set *)
  let query_embedding := if include_query then Some (embed query) else None in
  let similarity_scores :=
    foldl (λ similarity_scores doc_embedding,
             let doc_answer_similarity :=
               cosine_similarity doc_embedding answer_embedding in
             let similarity_score :=
               match query_embedding with
               | Some query_embedding =>
                   let doc_query_similarity :=
                     cosine_similarity doc_embedding query_embedding in
                   div ar (add ar doc_answer_similarity doc_query_similarity)
                       (two ar)
               | None => doc_answer_similarity
               end in
             similarity_scores ++ [similarity_score])
          [] context_embeddings in
  let total_similarity := sum_with similarity_scores in
  if gt ar total_similarity (zero ar)
  then map (λ score, div ar score total_similarity) similarity_scores
  else similarity_scores.
End similarity_with.

Arguments compute_similarity_with ar getenv {Embedding} embed cosine_similarity
  query context answer.

(** ** Conditions on the inputs *)

(** Every attention weight is non-negative. *)
Definition tensor_nonneg (t : tensor) : Prop :=
  Forall (Forall (Forall (λ x, 0 <= x)%Q)) t.


(** The text [part] is located at [span] in the encoded [thread]. *)
Definition located (encode : string → tokens) (thread part : string)
    (span : Z * Z) : Prop :=
  find_sublist_positions (encode thread) (encode part) = Return span.

(** ** The scores in the words of the specification *)

Section specification.
Local Open Scope Q_scope.

(** Entry [head][q][k] of one head. *)
Definition entry (head : list (list Q)) (q k : Z) : Q :=
  default 0 (row ← head !! Z.to_nat q; row !! Z.to_nat k).

(** Attention mass between two spans of inclusive token offsets: the sum,
    over all heads, of the entries with query position in [qspan] and
    key position in [kspan]. *)
Definition attention_mass (t : tensor) (qspan kspan : Z * Z) : Q :=
  let '(q0, q1) := qspan in
  let '(k0, k1) := kspan in
  sumQ (map (λ head,
          sumQ (map (λ q,
            sumQ (map (λ k, entry head q k) (seqZ k0 (k1 - k0 + 1))))
            (seqZ q0 (q1 - q0 + 1)))) t).

(** [RawScore] of the document span [doc]. *)
Definition RawScore (t : tensor) (include_query : bool)
    (query answer doc : Z * Z) : Q :=
  let AnswerToDoc := attention_mass t answer doc in
  let DocToAnswer := attention_mass t doc answer in
  if include_query then
    let QueryToDoc := attention_mass t query doc in
    let DocToQuery := attention_mass t doc query in
    QueryToDoc + DocToQuery + AnswerToDoc + DocToAnswer
  else AnswerToDoc + DocToAnswer.

(** [Score = RawScore / TotalWeight if TotalWeight > 0 else 0]. *)
Definition Score (t : tensor) (include_query : bool)
    (query answer doc : Z * Z) : Q :=
  let TotalWeight := tensor_sum t in
  if Qgtb TotalWeight 0
  then RawScore t include_query query answer doc / TotalWeight else 0.

(** [RawScore] of the embedding attributor for one document. *)
Definition RawSim {Embedding : Type} (embed : string → Embedding)
    (cosine_similarity : Embedding → Embedding → Q)
    (include_query : bool) (query answer doc : string) : Q :=
  let DocAnswerSim := cosine_similarity (embed doc) (embed answer) in
  if include_query then
    let DocQuerySim := cosine_similarity (embed doc) (embed query) in
    (DocAnswerSim + DocQuerySim) / 2
  else DocAnswerSim.
End specification.

(** [RawScore] of the embedding attributor for one document, with the
    operations of the arithmetic [ar]. *)
Definition RawSim_with (ar : arith) {Embedding : Type}
    (embed : string → Embedding)
    (cosine_similarity : Embedding → Embedding → num ar)
    (include_query : bool) (query answer doc : string) : num ar :=
  let DocAnswerSim := cosine_similarity (embed doc) (embed answer) in
  if include_query then
    let DocQuerySim := cosine_similarity (embed doc) (embed query) in
    div ar (add ar DocAnswerSim DocQuerySim) (two ar)
  else DocAnswerSim.

(** ** Concrete collaborators used in the examples *)

Definition env_unset : environ := λ _, None.

Definition env_no_query : environ := λ name,
  if decide (name = "attribute_include_query") then Some "False" else None.

(** A character-level tokenizer: one token per character, its code. *)
Definition char_tokenizer (s : string) : tokens :=
  map (λ c, Z.of_nat (nat_of_ascii c)) (list_ascii_of_string s).

(** A single-head model attending uniformly: on [n] tokens every one of the
    [n * n] entries is [1 / n], so that each row sums to 1. *)
Definition uniform_attention (thread_tokens : tokens) : tensor :=
  let n := length thread_tokens in
  [replicate n (replicate n (1 / inject_Z (Z.of_nat n))%Q)].

(** A single-head model that attends to nothing: every weight is 0. *)
Definition zero_attention (thread_tokens : tokens) : tensor :=
  let n := length thread_tokens in
  [replicate n (replicate n 0%Q)].

(** Integer vectors and their cosine; exact whenever both squared norms are
    perfect squares, which holds for every vector of [plane_embed]. *)
Definition dot (x y : list Z) : Z :=
  foldr Z.add 0 (zip_with Z.mul x y).

Definition int_cosine (x y : list Z) : Q :=
  (inject_Z (dot x y) / inject_Z (Z.sqrt (dot x x) * Z.sqrt (dot y y)))%Q.

(** An encoder into the plane: the answer [aa] points east, the query [qq]
    north, the document [dd] north-east and the document [ee] north-west. *)
Definition plane_embed (s : string) : list Z :=
  if decide (s = "aa") then [1; 0]
  else if decide (s = "qq") then [0; 1]
  else if decide (s = "dd") then [4; 3]
  else if decide (s = "ee") then [-3; 4]
  else [0; 0].

(** The float of [prec] bits nearest to the fraction [n / d]. *)
Definition nearest (prec emax : Z) (n d : Z) : spec_float :=
  SFdiv prec emax (binary_normalize prec emax n 0 false)
                  (binary_normalize prec emax d 0 false).

(** The exact value of a finite float. *)
Definition SF2Q (x : spec_float) : Q :=
  match x with
  | S754_finite s m e =>
      let v := if 0 <=? e then inject_Z (Z.pos m * 2 ^ e)
               else Z.pos m # 2 ^ Z.to_pos (- e) in
      if s then (- v)%Q else v
  | _ => 0%Q
  end.

(** Documents that state their cosine to the answer in their text: the
    float of [prec] bits nearest to it. *)
Definition stated_cosine (prec emax : Z) (doc answer : string) : spec_float :=
  if decide (doc = "0.1") then nearest prec emax 1 10
  else if decide (doc = "0.2") then nearest prec emax 2 10
  else if decide (doc = "-0.3") then nearest prec emax (-3) 10
  else if decide (doc = "0.6") then nearest prec emax 6 10
  else if decide (doc = "-0.7") then nearest prec emax (-7) 10
  else if decide (doc = "0.35") then nearest prec emax 35 100
  else if decide (doc = "0.65") then nearest prec emax 65 100
  else if decide (doc = "-0.95") then nearest prec emax (-95) 100
  else S754_zero false.

(** * The span locator: proofs *)

(** Closes a goal on concrete data by evaluation. *)
Ltac eval_Q := vm_compute; first [reflexivity | discriminate].

Example slice_inner : slice [1; 2; 3; 4] 1 3 = [2; 3].
Proof. reflexivity. Qed.

Example slice_past_end : slice [1; 2; 3; 4] 3 9 = [4].
Proof. reflexivity. Qed.

Example slice_negative_end : slice [1; 2; 3; 4] 0 (-1) = [1; 2; 3].
Proof. reflexivity. Qed.

Example find_second_of_three :
  find_sublist_positions [5; 6; 7; 6; 7] [6; 7] = Return (1, 2).
Proof. reflexivity. Qed.

Example find_longer_part :
  find_sublist_positions [5] [5; 6] = Raise (ValueError "Sublist not found").
Proof. reflexivity. Qed.

Example find_empty_part : find_sublist_positions [5; 6; 7] [] = Return (0, -1).
Proof. reflexivity. Qed.

Section slice_facts.
Context {A : Type}.
Implicit Types l : list A.

Lemma slice_bound_nonneg n i : 0 ≤ n → 0 ≤ i → slice_bound n i = Z.min i n.
Proof. intros Hn Hi. unfold slice_bound. destruct (Z.ltb_spec i 0); lia. Qed.

Lemma slice_nonneg l a b :
  0 ≤ a → 0 ≤ b →
  slice l a b = take (Z.to_nat b - Z.to_nat a) (drop (Z.to_nat a) l).
Proof.
  intros Ha Hb. unfold slice. rewrite !slice_bound_nonneg by lia.
  destruct (decide (a ≤ len l)) as [Hal|Hal].
  - rewrite (Z.min_l a) by lia.
    destruct (decide (b ≤ len l)) as [Hbl|Hbl].
    + rewrite Z.min_l by lia. f_equal. lia.
    + rewrite Z.min_r by lia. rewrite !take_ge; [done | |]; rewrite length_drop; lia.
  - rewrite (Z.min_r a) by lia. rewrite !drop_ge by lia. by rewrite !take_nil.
Qed.

Lemma length_slice_nonneg l a b :
  0 ≤ a → a ≤ b → len (slice l a b) = Z.min b (len l) - Z.min a (len l).
Proof.
  intros Ha Hb. rewrite slice_nonneg by lia.
  rewrite length_take, length_drop. lia.
Qed.

Lemma slice_app_middle (pre mid post : list A) :
  slice (pre ++ mid ++ post) (len pre) (len pre + len mid) = mid.
Proof.
  rewrite slice_nonneg by lia. rewrite Nat2Z.id.
  rewrite drop_app_length.
  replace (Z.to_nat (len pre + len mid) - length pre)%nat with (length mid) by lia.
  by rewrite take_app_length.
Qed.

Lemma slice_split l a n :
  0 ≤ a → 0 ≤ n → a + n ≤ len l →
  l = take (Z.to_nat a) l ++ slice l a (a + n) ++ drop (Z.to_nat (a + n)) l.
Proof.
  intros Ha Hn Hl. rewrite slice_nonneg by lia.
  replace (Z.to_nat (a + n) - Z.to_nat a)%nat with (Z.to_nat n) by lia.
  replace (Z.to_nat (a + n)) with (Z.to_nat a + Z.to_nat n)%nat by lia.
  rewrite <- drop_drop.
  by rewrite !take_drop.
Qed.
End slice_facts.

(** An occurrence at offset [k], read as a slice comparison:
    [thread_tokens[k : k + len(part_tokens)] == part_tokens]. *)
Lemma occurs_at_slice (H N : tokens) (k : Z) :
  occurs_at H N k → 0 ≤ k ∧ slice H k (k + len N) = N.
Proof.
  intros (pre & post & -> & <-). split; [lia|]. apply slice_app_middle.
Qed.

Lemma slice_occurs_at (H N : tokens) (k : Z) :
  0 ≤ k → slice H k (k + len N) = N → N ≠ [] → occurs_at H N k.
Proof.
  intros Hk Heq Hne.
  assert (Hlen : len (slice H k (k + len N)) = len N) by (by rewrite Heq).
  rewrite length_slice_nonneg in Hlen by lia.
  assert (0 < len N) by (destruct N; [done | simpl; lia]).
  assert (k + len N ≤ len H) by lia.
  exists (take (Z.to_nat k) H), (drop (Z.to_nat (k + len N)) H). split.
  - pose proof (slice_split H k (len N)) as Hs. rewrite Heq in Hs. apply Hs; lia.
  - rewrite length_take. lia.
Qed.

Lemma occurs_at_nil (H : tokens) : occurs_at H [] 0.
Proof. by exists [], H. Qed.

(** Every occurrence starts inside the range the loop scans. *)
Lemma occurs_at_in_range (H N : tokens) (k : Z) :
  occurs_at H N k → 0 ≤ k < len H - len N + 1.
Proof.
  intros (pre & post & -> & <-). rewrite !length_app. lia.
Qed.

(** What the loop does from index [i] with [todo] iterations left: it
    returns the first match in [i, i + todo), or raises when there is none. *)
Lemma find_sublist_loop_spec (H N : tokens) (todo : nat) (i : Z) :
  (∃ j, i ≤ j < i + Z.of_nat todo ∧
        find_sublist_loop H N i todo = Return (j, j + len N - 1) ∧
        slice H j (j + len N) = N ∧
        ∀ j', i ≤ j' < j → slice H j' (j' + len N) ≠ N)
  ∨ (find_sublist_loop H N i todo = Raise (ValueError "Sublist not found") ∧
     ∀ j', i ≤ j' < i + Z.of_nat todo → slice H j' (j' + len N) ≠ N).
Proof.
  revert i. induction todo as [|todo IH]; intros i.
  - right. split; [done|]. intros j' ?. lia.
  - simpl find_sublist_loop. case_decide as Hm.
    + left. exists i. repeat split; [lia | lia | done |]. intros j' ?. lia.
    + destruct (IH (i + 1)) as [(j & Hj & Hr & Hs & Hmin) | [Hr Hnone]].
      * left. exists j. repeat split; [lia | lia | done | done |].
        intros j' Hj'. destruct (decide (j' = i)) as [->|]; [done|].
        apply Hmin. lia.
      * right. split; [done|]. intros j' Hj'.
        destruct (decide (j' = i)) as [->|]; [done|]. apply Hnone. lia.
Qed.

(** The locator either returns the lowest offset at which the part occurs,
    with the inclusive end offset, or raises when the part occurs nowhere. *)
Lemma find_sublist_positions_spec (H N : tokens) :
  (∃ i, find_sublist_positions H N = Return (i, i + len N - 1) ∧
        occurs_at H N i ∧ ∀ k, occurs_at H N k → i ≤ k)
  ∨ (find_sublist_positions H N = Raise (ValueError "Sublist not found") ∧
     ∀ k, ¬ occurs_at H N k).
Proof.
  unfold find_sublist_positions.
  destruct (find_sublist_loop_spec H N (Z.to_nat (len H - len N + 1)) 0)
    as [(j & Hj & Hr & Hs & Hmin) | [Hr Hnone]].
  - left. exists j. split; [done|].
    assert (Hocc : occurs_at H N j).
    { destruct N as [|x N]; [|by apply slice_occurs_at; [lia|..]].
      destruct (decide (j = 0)) as [->|]; [apply occurs_at_nil|].
      exfalso. apply (Hmin 0); [lia|]. by apply occurs_at_slice, occurs_at_nil. }
    split; [done|]. intros k Hk.
    destruct (decide (j ≤ k)) as [|Hlt]; [done|]. exfalso.
    apply occurs_at_slice in Hk as [? ?]. apply (Hmin k); [lia | done].
  - right. split; [done|]. intros k Hocc.
    pose proof (occurs_at_in_range _ _ _ Hocc).
    apply occurs_at_slice in Hocc as [? ?]. apply (Hnone k); [lia | done].
Qed.

(** ** Claims on the span locator *)

(** C6 (as amended): when the part is taken from the thread at offset [k],
    so that [H[k : k + len(N)]] equals the part, the locator returns the
    span [(i, i + len(N) - 1)] of the lowest offset [i] at which the part
    occurs; [i <= k], the slice [H[i : i + len(N)]] equals the part, and
    [i] is [k] itself whenever the part does not occur before [k]. *)
Theorem find_sublist_positions_span (H N : tokens) (k : Z) :
  occurs_at H N k →
  slice H k (k + len N) = N ∧
  ∃ i, find_sublist_positions H N = Return (i, i + len N - 1) ∧
       0 ≤ i ≤ k ∧
       slice H i (i + len N) = N ∧
       ((∀ j, 0 ≤ j < k → ¬ occurs_at H N j) → i = k).
Proof.
  intros Hk. split; [by apply occurs_at_slice|].
  destruct (find_sublist_positions_spec H N) as [(i & Hr & Hi & Hmin) | [_ Hnone]];
    [|by destruct (Hnone k)].
  exists i. split; [done|].
  pose proof (Hmin k Hk). destruct (occurs_at_slice _ _ _ Hi) as [Hi0 Hs].
  repeat split; [done | done | done |].
  intros Hfirst. destruct (decide (i = k)) as [|Hne]; [done|].
  destruct (Hfirst i); [lia | done].
Qed.

Lemma find_sublist_positions_span_witness :
  occurs_at [5; 6; 7; 6; 7] [6; 7] 3 ∧
  slice [5; 6; 7; 6; 7] 3 (3 + 2) = [6; 7] ∧
  ∃ i, find_sublist_positions [5; 6; 7; 6; 7] [6; 7] = Return (i, i + 2 - 1) ∧
       0 ≤ i ≤ 3 ∧
       slice [5; 6; 7; 6; 7] i (i + 2) = [6; 7] ∧
       ((∀ j, 0 ≤ j < 3 → ¬ occurs_at [5; 6; 7; 6; 7] [6; 7] j) → i = 3).
Proof.
  assert (Hocc : occurs_at [5; 6; 7; 6; 7] [6; 7] 3)
    by (exists [5; 6; 7], []; split; reflexivity).
  split; [exact Hocc|].
  exact (find_sublist_positions_span [5; 6; 7; 6; 7] [6; 7] 3 Hocc).
Defined.

(** C6 as stated fails: the part [7] is taken from the thread [7; 7] at
    offset 1, yet the locator returns the span of offset 0. *)
Lemma find_sublist_positions_not_every_offset :
  occurs_at [7; 7] [7] 1 ∧
  slice [7; 7] 1 (1 + len [7]) = [7] ∧
  find_sublist_positions [7; 7] [7] = Return (0, 0) ∧
  find_sublist_positions [7; 7] [7] ≠ Return (1, 1 + len [7] - 1).
Proof.
  split; [by exists [7], [] |]. split; [reflexivity|].
  split; [reflexivity | discriminate].
Qed.

(** C7: when the part occurs in the thread, at one or at several offsets,
    the locator returns the span starting at the lowest of them. *)
Theorem find_sublist_positions_first_match (H N : tokens) (k : Z) :
  occurs_at H N k →
  ∃ i, find_sublist_positions H N = Return (i, i + len N - 1) ∧
       occurs_at H N i ∧
       ∀ j, occurs_at H N j → i ≤ j.
Proof.
  intros Hk.
  destruct (find_sublist_positions_spec H N) as [(i & Hr & Hi & Hmin) | [_ Hnone]];
    [by exists i | by destruct (Hnone k)].
Qed.

Lemma find_sublist_positions_first_match_witness :
  occurs_at [1; 2; 1; 2; 1] [1; 2] 2 ∧
  ∃ i, find_sublist_positions [1; 2; 1; 2; 1] [1; 2] = Return (i, i + 2 - 1) ∧
       occurs_at [1; 2; 1; 2; 1] [1; 2] i ∧
       ∀ j, occurs_at [1; 2; 1; 2; 1] [1; 2] j → i ≤ j.
Proof.
  assert (Hocc : occurs_at [1; 2; 1; 2; 1] [1; 2] 2)
    by (exists [1; 2], [1]; split; reflexivity).
  split; [exact Hocc|].
  exact (find_sublist_positions_first_match [1; 2; 1; 2; 1] [1; 2] 2 Hocc).
Defined.

Lemma find_sublist_positions_absent_Raise (H N : tokens) :
  (¬ ∃ pre post, H = pre ++ N ++ post) →
  find_sublist_positions H N = Raise (ValueError "Sublist not found").
Proof.
  intros Habsent.
  destruct (find_sublist_positions_spec H N) as [(i & _ & Hi & _) | [Hr _]];
    [|done].
  destruct Habsent. destruct Hi as (pre & post & ? & _). by exists pre, post.
Qed.

Lemma find_sublist_positions_Raise_absent (H N : tokens) (e : exn) :
  find_sublist_positions H N = Raise e → ¬ ∃ pre post, H = pre ++ N ++ post.
Proof.
  intros Hfind (pre & post & Heq).
  destruct (find_sublist_positions_spec H N) as [(i & Hr & _) | [_ Hnone]];
    [by rewrite Hr in Hfind|].
  apply (Hnone (len pre)). by exists pre, post.
Qed.

(** C8: when the part occurs nowhere in the thread as a contiguous
    sub-sequence, the locator raises [ValueError("Sublist not found")] and
    returns no span. *)
Theorem find_sublist_positions_not_found (H N : tokens) :
  (¬ ∃ pre post, H = pre ++ N ++ post) →
  find_sublist_positions H N = Raise (ValueError "Sublist not found") ∧
  ∀ span, find_sublist_positions H N ≠ Return span.
Proof.
  intros Hr%find_sublist_positions_absent_Raise.
  split; [done|]. intros span. by rewrite Hr.
Qed.

Lemma find_sublist_positions_not_found_witness :
  find_sublist_positions [1; 2] [3] = Raise (ValueError "Sublist not found") ∧
  ∀ span, find_sublist_positions [1; 2] [3] ≠ Return span.
Proof.
  apply (find_sublist_positions_not_found [1; 2] [3]).
  apply (find_sublist_positions_Raise_absent _ _ (ValueError "Sublist not found")).
  vm_compute. reflexivity.
Defined.

(** * Sums *)

Section sums.
Local Open Scope Q_scope.
Implicit Types xs : list Q.

Lemma foldl_Qplus xs (a : Q) : foldl Qplus a xs == a + sumQ xs.
Proof.
  revert a. induction xs as [|x xs IH]; intros a; simpl.
  - ring.
  - rewrite IH. unfold sumQ. simpl. ring.
Qed.

Lemma py_sum_sumQ xs : py_sum xs == sumQ xs.
Proof. unfold py_sum. rewrite foldl_Qplus. ring. Qed.

Lemma sumQ_map_div xs (t : Q) : sumQ (map (λ x, x / t) xs) == sumQ xs / t.
Proof.
  induction xs as [|x xs IH]; unfold sumQ in *; simpl.
  - unfold Qdiv. ring.
  - rewrite IH. unfold Qdiv. ring.
Qed.

Lemma sumQ_nonneg xs : Forall (λ x, 0 <= x) xs → 0 <= sumQ xs.
Proof.
  induction 1 as [|x xs Hx _ IH]; unfold sumQ in *; simpl; lra.
Qed.

Lemma sumQ_elem_le xs x :
  Forall (λ x, 0 <= x) xs → x ∈ xs → x <= sumQ xs.
Proof.
  induction 1 as [|y xs Hy Hxs IH]; intros Hin; [by apply elem_of_nil in Hin|].
  pose proof (sumQ_nonneg xs Hxs) as Hs. unfold sumQ in *. simpl.
  apply elem_of_cons in Hin as [->|Hin]; [lra|].
  specialize (IH Hin). lra.
Qed.

Lemma Qgtb_true (x y : Q) : Qgtb x y = true ↔ y < x.
Proof.
  unfold Qgtb. rewrite Qgt_alt. destruct (x ?= y); split; congruence.
Qed.

Lemma Qgtb_false (x y : Q) : Qgtb x y = false ↔ x <= y.
Proof.
  unfold Qgtb. rewrite Qle_alt. destruct (x ?= y); split; congruence.
Qed.
End sums.

(** A loop that appends one value per element builds the mapped list. *)
Lemma foldl_append {A B : Type} (f : A → B) (l : list A) (acc : list B) :
  foldl (λ acc x, acc ++ [f x]) acc l = acc ++ map f l.
Proof.
  revert acc. induction l as [|x l IH]; intros acc; simpl.
  - by rewrite app_nil_r.
  - rewrite IH. by rewrite <- app_assoc.
Qed.

(** * The embedding attributor: proofs *)

Section similarity_facts.
Local Open Scope Q_scope.
Context (getenv : environ) {Embedding : Type}.
Context (embed : string → Embedding).
Context (cosine_similarity : Embedding → Embedding → Q).
Implicit Types (query answer : string) (context : list string).

(** The loop of [compute_similarity] computes [RawSim] for each document,
    in order; the function then normalizes by their sum when it is
    positive. *)
Lemma compute_similarity_eq query context answer :
  compute_similarity getenv embed cosine_similarity query context answer =
  let raw :=
    map (RawSim embed cosine_similarity (include_query_of getenv) query answer)
        context in
  if Qgtb (py_sum raw) 0 then map (λ score, score / py_sum raw) raw else raw.
Proof.
  unfold compute_similarity, RawSim.
  destruct (include_query_of getenv);
    rewrite (foldl_append _ (map embed context) []); simpl;
    by rewrite !map_map.
Qed.

Lemma length_compute_similarity query context answer :
  length (compute_similarity getenv embed cosine_similarity query context answer)
  = length context.
Proof.
  rewrite compute_similarity_eq. cbv zeta.
  destruct (Qgtb _ _); by rewrite ?length_map.
Qed.

Lemma normalized_sum_one (raw : list Q) :
  0 < py_sum raw → py_sum (map (λ score, score / py_sum raw) raw) == 1.
Proof.
  intros Hpos. rewrite py_sum_sumQ, sumQ_map_div, <- py_sum_sumQ.
  field. lra.
Qed.

Lemma normalized_range (raw : list Q) :
  Forall (λ x, 0 <= x) raw → 0 < py_sum raw →
  Forall (λ x, 0 <= x <= 1) (map (λ score, score / py_sum raw) raw).
Proof.
  intros Hnn Hpos. apply Forall_forall. intros y Hy.
  apply list_elem_of_fmap in Hy as (x & -> & Hx).
  pose proof (sumQ_elem_le raw x Hnn Hx) as Hle.
  rewrite <- py_sum_sumQ in Hle.
  rewrite Forall_forall in Hnn. specialize (Hnn x Hx).
  split.
  - apply Qle_shift_div_l; lra.
  - apply Qle_shift_div_r; lra.
Qed.
End similarity_facts.

(** * The attention attributor: proofs *)

Section attention_facts.
Context (getenv : environ) (encode : string → tokens).
Context (attention : tokens → tensor).
Implicit Types (thread query answer : string) (context : list string).

(** The loop over the documents locates each of them, in order. *)
Lemma context_offsets_loop_Return (thread_tokens : tokens) context acc offsets :
  context_offsets_loop encode thread_tokens context acc = Return offsets →
  ∃ spans, offsets = acc ++ spans ∧
    Forall2 (λ part span,
               find_sublist_positions thread_tokens (encode part) = Return span)
            context spans.
Proof.
  revert acc. induction context as [|part context IH]; intros acc; simpl.
  - intros [= <-]. exists []. by rewrite app_nil_r.
  - destruct (find_sublist_positions thread_tokens (encode part))
      as [span|e] eqn:Hfind; simpl; [|done].
    intros (spans & -> & Hall)%IH. exists (span :: spans).
    split; [by rewrite <- app_assoc | by constructor].
Qed.

(** A call that returns has located the query, the answer and every
    document, and its scores are [doc_attention] of the document spans. *)
Lemma compute_attention_Return thread query context answer scores :
  compute_attention getenv encode attention thread query context answer
    = Return scores →
  ∃ query_span answer_span context_offsets,
    located encode thread query query_span ∧
    located encode thread answer answer_span ∧
    Forall2 (located encode thread) context context_offsets ∧
    scores =
      map (doc_attention (attention (encode thread)) (include_query_of getenv)
             query_span.1 query_span.2 answer_span.1 answer_span.2
             (tensor_sum (attention (encode thread))))
          context_offsets.
Proof.
  unfold compute_attention, located.
  destruct (find_sublist_positions (encode thread) (encode query))
    as [[query_start query_end]|e] eqn:Hq; simpl; [|done].
  destruct (find_sublist_positions (encode thread) (encode answer))
    as [[answer_start answer_end]|e] eqn:Ha; simpl; [|done].
  destruct (context_offsets_loop encode (encode thread) context [])
    as [context_offsets|e] eqn:Hc; simpl; [|done].
  apply context_offsets_loop_Return in Hc as (spans & -> & Hall).
  intros [= <-].
  exists (query_start, query_end), (answer_start, answer_end), spans.
  repeat split; [done|]. simpl.
  by rewrite (foldl_append _ spans []).
Qed.

Lemma length_compute_attention thread query context answer scores :
  compute_attention getenv encode attention thread query context answer
    = Return scores →
  length scores = length context.
Proof.
  intros (qs & as' & offs & _ & _ & Hall & ->)%compute_attention_Return.
  rewrite length_map. symmetry. by eapply Forall2_length.
Qed.
End attention_facts.

(** * Sums over slices of a tensor *)

Section tensor_facts.
Local Open Scope Q_scope.

Lemma slice_sublist {A : Type} (l : list A) (a b : Z) :
  slice l a b `sublist_of` l.
Proof.
  unfold slice. etrans; [apply sublist_take | apply sublist_drop].
Qed.

(** Summing a smaller non-negative quantity over a sub-list gives less. *)
Lemma sumQ_map_sublist_le {A : Type} (g h : A → Q) (l1 l2 : list A) :
  l1 `sublist_of` l2 →
  Forall (λ x, 0 <= g x ∧ g x <= h x) l2 →
  sumQ (map g l1) <= sumQ (map h l2).
Proof.
  unfold sumQ. induction 1 as [|x l1 l2 _ IH|x l1 l2 _ IH];
    intros Hall; simpl; [lra| |];
    apply Forall_cons in Hall as [[H0 Hgh] Hall]; specialize (IH Hall); lra.
Qed.

Lemma sumQ_map_nonneg {A : Type} (g : A → Q) (l : list A) :
  Forall (λ x, 0 <= g x) l → 0 <= sumQ (map g l).
Proof. intros Hall. apply sumQ_nonneg. by apply Forall_fmap. Qed.

Lemma sumQ_slice_bounds (row : list Q) (a b : Z) :
  Forall (λ x, 0 <= x) row →
  0 <= sumQ (slice row a b) ∧ sumQ (slice row a b) <= sumQ row.
Proof.
  intros Hrow. split.
  - apply sumQ_nonneg. unfold slice. by apply Forall_take, Forall_drop.
  - pose proof (sumQ_map_sublist_le id id (slice row a b) row) as Hle.
    rewrite !map_id in Hle. apply Hle; [apply slice_sublist|].
    eapply Forall_impl; [exact Hrow|]. simpl. intros x ?. lra.
Qed.

Lemma head_slice_bounds (head : list (list Q)) (r0 r1 c0 c1 : Z) :
  Forall (Forall (λ x, 0 <= x)) head →
  0 <= sumQ (map sumQ (map (λ row, slice row c0 c1) (slice head r0 r1))) ∧
  sumQ (map sumQ (map (λ row, slice row c0 c1) (slice head r0 r1)))
    <= sumQ (map sumQ head).
Proof.
  intros Hhead. rewrite map_map. split.
  - apply sumQ_map_nonneg. unfold slice at 2.
    apply Forall_take, Forall_drop.
    eapply Forall_impl; [exact Hhead|]. simpl. intros row Hrow.
    by apply sumQ_slice_bounds.
  - apply sumQ_map_sublist_le; [apply slice_sublist|].
    eapply Forall_impl; [exact Hhead|]. simpl. intros row Hrow.
    by apply sumQ_slice_bounds.
Qed.

(** On non-negative weights every block of the tensor weighs between 0
    and the total weight. *)
Lemma tensor_slice_bounds (t : tensor) (r0 r1 c0 c1 : Z) :
  tensor_nonneg t →
  0 <= tensor_sum (tensor_slice t r0 r1 c0 c1) ∧
  tensor_sum (tensor_slice t r0 r1 c0 c1) <= tensor_sum t.
Proof.
  intros Ht. unfold tensor_sum, tensor_slice. rewrite map_map. split.
  - apply sumQ_map_nonneg. eapply Forall_impl; [exact Ht|]. simpl.
    intros head Hhead. by apply head_slice_bounds.
  - apply sumQ_map_sublist_le; [done|].
    eapply Forall_impl; [exact Ht|]. simpl.
    intros head Hhead. by apply head_slice_bounds.
Qed.

Lemma doc_attention_sum_nonneg (t : tensor) (include_query : bool)
    (qs qe as' ae : Z) (span : Z * Z) :
  tensor_nonneg t →
  0 <= doc_attention_sum t include_query qs qe as' ae span.
Proof.
  intros Ht. unfold doc_attention_sum. destruct span as [s e].
  pose proof (tensor_slice_bounds t as' ae s e Ht).
  pose proof (tensor_slice_bounds t s e as' ae Ht).
  pose proof (tensor_slice_bounds t qs qe s e Ht).
  pose proof (tensor_slice_bounds t s e qs qe Ht).
  destruct include_query; lra.
Qed.

(** With non-negative weights and no total weight, no block has weight:
    the combined attention of every document is then 0. *)
Lemma doc_attention_sum_zero (t : tensor) (include_query : bool)
    (qs qe as' ae : Z) (span : Z * Z) :
  tensor_nonneg t → tensor_sum t <= 0 →
  doc_attention_sum t include_query qs qe as' ae span == 0.
Proof.
  intros Ht Htot. unfold doc_attention_sum. destruct span as [s e].
  pose proof (tensor_slice_bounds t as' ae s e Ht).
  pose proof (tensor_slice_bounds t s e as' ae Ht).
  pose proof (tensor_slice_bounds t qs qe s e Ht).
  pose proof (tensor_slice_bounds t s e qs qe Ht).
  destruct include_query; lra.
Qed.

Lemma doc_attention_nonneg (t : tensor) (include_query : bool)
    (qs qe as' ae : Z) (total : Q) (span : Z * Z) :
  tensor_nonneg t →
  0 <= doc_attention t include_query qs qe as' ae total span.
Proof.
  intros Ht. unfold doc_attention.
  pose proof (doc_attention_sum_nonneg t include_query qs qe as' ae span Ht).
  destruct (Qgtb total 0) eqn:Hgt; [|lra].
  apply Qgtb_true in Hgt. apply Qle_shift_div_l; lra.
Qed.
End tensor_facts.

(** * Blocks over disjoint token ranges *)


Section indexed_sums.
Local Open Scope Q_scope.
Context {A : Type}.
Implicit Types (f g : nat → A → Q) (l : list A).

Lemma sumQ_imap_le f g l :
  (∀ i x, l !! i = Some x → f i x <= g i x) →
  sumQ (imap f l) <= sumQ (imap g l).
Proof.
  revert f g. induction l as [|x l IH]; intros f g Hfg; [done|].
  rewrite !imap_cons. unfold sumQ in *. simpl.
  pose proof (Hfg 0%nat x eq_refl).
  specialize (IH (f ∘ S) (g ∘ S) (λ i y Hi, Hfg (S i) y Hi)). lra.
Qed.

Lemma sumQ_imap_Qeq f g l :
  (∀ i x, l !! i = Some x → f i x == g i x) →
  sumQ (imap f l) == sumQ (imap g l).
Proof.
  intros Hfg. apply Qle_antisym; apply sumQ_imap_le; intros i x Hi;
    rewrite (Hfg i x Hi); lra.
Qed.



End indexed_sums.

Section disjoint_blocks.
Local Open Scope Q_scope.






End disjoint_blocks.

(** * The embedding attributor over float arithmetic: proofs *)

Lemma foldl_fold_left {A B : Type} (f : A → B → A) (a : A) (l : list B) :
  foldl f a l = fold_left f l a.
Proof. revert a. induction l as [|x l IH]; intros a; simpl; [done | apply IH]. Qed.

(** The loop of [compute_similarity] computes [RawSim_with] for each
    document, in order, whatever the arithmetic. *)
Lemma compute_similarity_with_eq (ar : arith) (getenv : environ)
    {Embedding : Type} (embed : string → Embedding)
    (cosine_similarity : Embedding → Embedding → num ar)
    (query : string) (context : list string) (answer : string) :
  compute_similarity_with ar getenv embed cosine_similarity query context answer =
  let raw :=
    map (RawSim_with ar embed cosine_similarity (include_query_of getenv)
           query answer) context in
  if gt ar (sum_with ar raw) (zero ar)
  then map (λ score, div ar score (sum_with ar raw)) raw else raw.
Proof.
  unfold compute_similarity_with, RawSim_with.
  destruct (include_query_of getenv);
    rewrite (foldl_append _ (map embed context) []); simpl;
    by rewrite !map_map.
Qed.

(** [compute_similarity] is [compute_similarity_with] at the exact
    rationals, and [py_sum] is [sum_with] there. *)
Lemma compute_similarity_with_exact (getenv : environ) {Embedding : Type}
    (embed : string → Embedding) (cosine_similarity : Embedding → Embedding → Q)
    (query : string) (context : list string) (answer : string) :
  compute_similarity_with exact getenv embed cosine_similarity
    query context answer
  = compute_similarity getenv embed cosine_similarity query context answer.
Proof. reflexivity. Qed.

Lemma sum_with_exact (xs : list Q) : sum_with exact xs = py_sum xs.
Proof. reflexivity. Qed.

(** * Claims on the embedding attributor *)

Section similarity_claims.
Local Open Scope Q_scope.

(** C5 (as amended): in whatever arithmetic the similarities come, with
    [RawScore] the cosine similarity of a document to the answer (averaged
    with its cosine similarity to the query when [include_query] is
    enabled) and [TotalSim] the raw scores added from the left, starting
    from 0, [compute_similarity] returns the quotient [RawScore / TotalSim]
    per document when [TotalSim > 0], and the raw scores unchanged
    otherwise.  Nothing is said of the sum of the returned scores. *)
Theorem compute_similarity_normalizes (ar : arith) (getenv : environ)
    {Embedding : Type} (embed : string → Embedding)
    (cosine_similarity : Embedding → Embedding → num ar)
    (query : string) (context : list string) (answer : string) :
  let RawScores :=
    map (RawSim_with ar embed cosine_similarity (include_query_of getenv)
           query answer) context in
  let TotalSim := fold_left (add ar) RawScores (zero ar) in
  let scores :=
    compute_similarity_with ar getenv embed cosine_similarity
      query context answer in
  (gt ar TotalSim (zero ar) = true →
     scores = map (λ RawScore, div ar RawScore TotalSim) RawScores) ∧
  (gt ar TotalSim (zero ar) = false → scores = RawScores).
Proof.
  intros RawScores TotalSim scores. subst scores.
  rewrite compute_similarity_with_eq. cbv zeta. unfold sum_with.
  rewrite foldl_fold_left. fold RawScores. fold TotalSim.
  split; intros ->; reflexivity.
Qed.

(** C10: when [attribute_include_query] is ["False"], the scores of
    [compute_similarity] do not depend on the query. *)
Theorem compute_similarity_ignores_query (getenv : environ)
    {Embedding : Type} (embed : string → Embedding)
    (cosine_similarity : Embedding → Embedding → Q)
    (query1 query2 : string) (context : list string) (answer : string) :
  getenv "attribute_include_query"%string = Some "False"%string →
  compute_similarity getenv embed cosine_similarity query1 context answer =
  compute_similarity getenv embed cosine_similarity query2 context answer.
Proof.
  intros Hflag. unfold compute_similarity, include_query_of.
  by rewrite decide_True by done.
Qed.
End similarity_claims.

Lemma compute_similarity_normalizes_witness :
  let raw doc := RawSim_with binary32 id (stated_cosine 24 128)
                   (include_query_of env_no_query) "query" "answer" doc in
  let total context := fold_left (add binary32) (map raw context)
                         (zero binary32) in
  compute_similarity_with binary32 env_no_query id (stated_cosine 24 128)
    "query" ["0.35"; "0.65"; "-0.95"]%string "answer" =
  map (λ RawScore, div binary32 RawScore
                     (total ["0.35"; "0.65"; "-0.95"]%string))
      (map raw ["0.35"; "0.65"; "-0.95"]%string) ∧
  compute_similarity_with binary32 env_no_query id (stated_cosine 24 128)
    "query" ["0.35"; "-0.95"]%string "answer" =
  map raw ["0.35"; "-0.95"]%string.
Proof.
  intros raw total. split.
  - apply (proj1 (compute_similarity_normalizes binary32 env_no_query id
                    (stated_cosine 24 128) "query"
                    ["0.35"; "0.65"; "-0.95"]%string "answer")).
    vm_compute. reflexivity.
  - apply (proj2 (compute_similarity_normalizes binary32 env_no_query id
                    (stated_cosine 24 128) "query"
                    ["0.35"; "-0.95"]%string "answer")).
    vm_compute. reflexivity.
Defined.

(** C5 as stated fails under rounding.  In binary32, documents at the
    cosines 0.35, 0.65 and -0.95 to the answer have the positive total
    0.05000001, and the returned scores add up to 524287/524288, about
    0.9999981, both in binary32 and exactly: more than 1e-6 away from 1.
    At the cosines 0.1, 0.6 and -0.7 the total is 2^-24 and the exact sum of
    the returned scores is 0.625.  In binary64, at the cosines 0.1, 0.2 and
    -0.3, the total is 2^-54 and the exact sum of the returned scores is
    0.5. *)
Lemma compute_similarity_sum_not_one :
  (let context := ["0.35"; "0.65"; "-0.95"]%string in
   let RawScores :=
     map (RawSim_with binary32 id (stated_cosine 24 128)
            (include_query_of env_no_query) "query" "answer") context in
   let TotalSim := fold_left (add binary32) RawScores (zero binary32) in
   let scores :=
     compute_similarity_with binary32 env_no_query id (stated_cosine 24 128)
       "query" context "answer" in
   gt binary32 TotalSim (zero binary32) = true ∧
   (SF2Q (fold_left (add binary32) scores (zero binary32))
      == 524287 # 524288)%Q ∧
   (fold_left Qplus (map SF2Q scores) 0 == 524287 # 524288)%Q ∧
   (1 # 1000000 <
      Qabs (SF2Q (fold_left (add binary32) scores (zero binary32)) - 1))%Q ∧
   (1 # 1000000 < Qabs (fold_left Qplus (map SF2Q scores) 0 - 1))%Q) ∧
  (let context := ["0.1"; "0.6"; "-0.7"]%string in
   let RawScores :=
     map (RawSim_with binary32 id (stated_cosine 24 128)
            (include_query_of env_no_query) "query" "answer") context in
   let TotalSim := fold_left (add binary32) RawScores (zero binary32) in
   let scores :=
     compute_similarity_with binary32 env_no_query id (stated_cosine 24 128)
       "query" context "answer" in
   gt binary32 TotalSim (zero binary32) = true ∧
   (fold_left Qplus (map SF2Q scores) 0 == 5 # 8)%Q ∧
   (1 # 1000000 < Qabs (fold_left Qplus (map SF2Q scores) 0 - 1))%Q) ∧
  (let context := ["0.1"; "0.2"; "-0.3"]%string in
   let RawScores :=
     map (RawSim_with binary64 id (stated_cosine 53 1024)
            (include_query_of env_no_query) "query" "answer") context in
   let TotalSim := fold_left (add binary64) RawScores (zero binary64) in
   let scores :=
     compute_similarity_with binary64 env_no_query id (stated_cosine 53 1024)
       "query" context "answer" in
   gt binary64 TotalSim (zero binary64) = true ∧
   (fold_left Qplus (map SF2Q scores) 0 == 1 # 2)%Q ∧
   (1 # 1000000 < Qabs (fold_left Qplus (map SF2Q scores) 0 - 1))%Q).
Proof.
  split; [|split]; cbv zeta; repeat split; vm_compute; reflexivity.
Qed.

Lemma compute_similarity_ignores_query_witness :
  compute_similarity env_no_query plane_embed int_cosine
    "qq" ["dd"; "ee"]%string "aa" =
  compute_similarity env_no_query plane_embed int_cosine
    "dd" ["dd"; "ee"]%string "aa".
Proof.
  apply (compute_similarity_ignores_query env_no_query plane_embed int_cosine).
  reflexivity.
Defined.

(** * The slices of the code and the spans of the specification *)

Section half_open.
Local Open Scope Q_scope.

Lemma sumQ_map_Qeq {A : Type} (f g : A → Q) (l : list A) :
  (∀ x, x ∈ l → f x == g x) → sumQ (map f l) == sumQ (map g l).
Proof.
  induction l as [|x l IH]; intros Hfg; [reflexivity|].
  change (f x + sumQ (map f l) == g x + sumQ (map g l)).
  rewrite IH by (intros y Hy; apply Hfg; by right).
  rewrite (Hfg x) by left. reflexivity.
Qed.

Lemma sumQ_map_zero {A : Type} (l : list A) : sumQ (map (λ _, 0) l) == 0.
Proof.
  induction l as [|x l IH]; [reflexivity|].
  change (0 + sumQ (map (λ _, 0) l) == 0). rewrite IH. reflexivity.
Qed.

(** The sum over [n] elements of [l] from index [a] on is the sum of the
    entries at the indices [a, ..., a + n - 1], an index out of range
    contributing nothing. *)
Lemma sumQ_take_drop_seqZ {A : Type} (h : A → Q) (l : list A) (a n : nat) :
  sumQ (map h (take n (drop a l)))
  == sumQ (map (λ z, default 0 (h <$> l !! Z.to_nat z))
               (seqZ (Z.of_nat a) (Z.of_nat n))).
Proof.
  revert a. induction n as [|n IH]; intros a.
  - rewrite take_0, seqZ_nil by lia. reflexivity.
  - rewrite seqZ_cons by lia.
    replace (Z.succ (Z.of_nat a)) with (Z.of_nat (S a)) by lia.
    replace (Z.pred (Z.of_nat (S n))) with (Z.of_nat n) by lia.
    change (sumQ (map h (take (S n) (drop a l))) ==
            default 0 (h <$> l !! Z.to_nat (Z.of_nat a)) +
            sumQ (map (λ z, default 0 (h <$> l !! Z.to_nat z))
                      (seqZ (Z.of_nat (S a)) (Z.of_nat n)))).
    rewrite <- IH, Nat2Z.id. destruct (l !! a) as [x|] eqn:Hx.
    + rewrite (drop_S l x a Hx). reflexivity.
    + apply lookup_ge_None in Hx.
      rewrite !drop_ge, !take_nil by lia. reflexivity.
Qed.

Lemma sumQ_slice_seqZ {A : Type} (h : A → Q) (l : list A) (a b : Z) :
  (0 ≤ a)%Z → (0 ≤ b)%Z →
  sumQ (map h (slice l a b))
  == sumQ (map (λ z, default 0 (h <$> l !! Z.to_nat z)) (seqZ a (b - a))).
Proof.
  intros Ha Hb. rewrite slice_nonneg, sumQ_take_drop_seqZ by done.
  rewrite Z2Nat.id by done. destruct (decide (a ≤ b)%Z).
  - by replace (Z.of_nat (Z.to_nat b - Z.to_nat a)) with (b - a)%Z by lia.
  - rewrite !seqZ_nil by lia. reflexivity.
Qed.

(** A block sliced out with the bounds [r0:r1] and [c0:c1] holds the
    attention mass between the inclusive spans [(r0, r1 - 1)] and
    [(c0, c1 - 1)]. *)
Lemma tensor_slice_attention_mass (t : tensor) (r0 r1 c0 c1 : Z) :
  (0 ≤ r0)%Z → (0 ≤ r1)%Z → (0 ≤ c0)%Z → (0 ≤ c1)%Z →
  tensor_sum (tensor_slice t r0 r1 c0 c1)
  == attention_mass t (r0, r1 - 1)%Z (c0, c1 - 1)%Z.
Proof.
  intros Hr0 Hr1 Hc0 Hc1. unfold tensor_sum, tensor_slice, attention_mass.
  replace (r1 - 1 - r0 + 1)%Z with (r1 - r0)%Z by lia.
  replace (c1 - 1 - c0 + 1)%Z with (c1 - c0)%Z by lia.
  rewrite map_map. apply sumQ_map_Qeq. intros head _. rewrite map_map.
  rewrite sumQ_slice_seqZ by done.
  apply sumQ_map_Qeq. intros q _. unfold entry.
  destruct (head !! Z.to_nat q) as [row|]; simpl.
  - rewrite <- (map_id (slice row c0 c1)), sumQ_slice_seqZ by done.
    apply sumQ_map_Qeq. intros k _. by destruct (row !! Z.to_nat k).
  - by rewrite sumQ_map_zero.
Qed.

(** What the code computes for a document, in the words of the
    specification: the [Score] of the query, answer and document spans
    each cut short of its last token. *)
Lemma doc_attention_half_open (t : tensor) (include_query : bool)
    (qs qe as' ae s e : Z) :
  (0 ≤ qs)%Z → (0 ≤ qe)%Z → (0 ≤ as')%Z → (0 ≤ ae)%Z → (0 ≤ s)%Z → (0 ≤ e)%Z →
  doc_attention t include_query qs qe as' ae (tensor_sum t) (s, e)
  == Score t include_query (qs, qe - 1)%Z (as', ae - 1)%Z (s, e - 1)%Z.
Proof.
  intros. unfold doc_attention, Score, doc_attention_sum, RawScore.
  destruct (Qgtb (tensor_sum t) 0); [|reflexivity].
  apply Qdiv_comp; [|reflexivity].
  destruct include_query;
    rewrite <- !tensor_slice_attention_mass by done; ring.
Qed.
End half_open.

(** * Claims on the attention attributor *)

(** A located span of a non-empty part has ordered, non-negative ends. *)
Lemma find_sublist_positions_bounds (H N : tokens) (s e : Z) :
  find_sublist_positions H N = Return (s, e) → N ≠ [] → 0 ≤ s ≤ e.
Proof.
  intros Hfind Hne.
  destruct (find_sublist_positions_spec H N) as [(i & Hr & Hi & _) | [Hr _]];
    rewrite Hr in Hfind; [|done].
  injection Hfind as <- <-. apply occurs_at_in_range in Hi.
  destruct N; [done | simpl length; lia].
Qed.

(** A slice with equal bounds is empty, so a block over it has no weight. *)
Lemma slice_empty {A : Type} (l : list A) (a : Z) : slice l a a = [].
Proof. unfold slice. by rewrite Z.sub_diag. Qed.

Lemma tensor_slice_no_columns (t : tensor) (r0 r1 c : Z) :
  (tensor_sum (tensor_slice t r0 r1 c c) == 0)%Q.
Proof.
  unfold tensor_sum, tensor_slice. rewrite map_map.
  induction t as [|head t IH]; [reflexivity|].
  change (sumQ (map sumQ (map (λ row, slice row c c) (slice head r0 r1)))
          + sumQ (map (λ head, sumQ (map sumQ
                    (map (λ row, slice row c c) (slice head r0 r1)))) t) == 0)%Q.
  rewrite IH, map_map. clear IH.
  induction (slice head r0 r1) as [|row rows IH]; [reflexivity|].
  change (sumQ (slice row c c)
          + sumQ (map (λ row, sumQ (slice row c c)) rows) + 0 == 0)%Q.
  rewrite slice_empty. change (sumQ []) with 0%Q. lra.
Qed.

Lemma tensor_slice_no_rows (t : tensor) (r c0 c1 : Z) :
  (tensor_sum (tensor_slice t r r c0 c1) == 0)%Q.
Proof.
  unfold tensor_sum, tensor_slice. rewrite map_map.
  induction t as [|head t IH]; [reflexivity|].
  change (sumQ (map sumQ (map (λ row, slice row c0 c1) (slice head r r)))
          + sumQ (map (λ head, sumQ (map sumQ
                    (map (λ row, slice row c0 c1) (slice head r r)))) t) == 0)%Q.
  rewrite IH, slice_empty. reflexivity.
Qed.

(** Whatever the attention weights, a document of a single token, located
    at [(s, s)], has combined attention 0. *)
Lemma doc_attention_sum_single_token (t : tensor) (include_query : bool)
    (qs qe as' ae s : Z) :
  (doc_attention_sum t include_query qs qe as' ae (s, s) == 0)%Q.
Proof.
  unfold doc_attention_sum.
  pose proof (tensor_slice_no_columns t as' ae s).
  pose proof (tensor_slice_no_columns t qs qe s).
  pose proof (tensor_slice_no_rows t s as' ae).
  pose proof (tensor_slice_no_rows t s qs qe).
  destruct include_query; lra.
Qed.

(** Every score of a returning call is the [Score] of the located spans
    each cut short of its last token. *)
Lemma compute_attention_half_open (getenv : environ)
    (encode : string → tokens) (attention : tokens → tensor)
    (thread query : string) (context : list string) (answer : string)
    (scores : list Q) :
  encode query ≠ [] → encode answer ≠ [] →
  Forall (λ doc, encode doc ≠ []) context →
  compute_attention getenv encode attention thread query context answer
    = Return scores →
  ∃ qs qe as' ae context_offsets,
    located encode thread query (qs, qe) ∧
    located encode thread answer (as', ae) ∧
    Forall2 (located encode thread) context context_offsets ∧
    Forall2 (λ score span,
               score == Score (attention (encode thread))
                          (include_query_of getenv)
                          (qs, qe - 1)%Z (as', ae - 1)%Z
                          (span.1, span.2 - 1)%Z)%Q
            scores context_offsets.
Proof.
  intros Hq Ha Hdocs Hret.
  apply compute_attention_Return
    in Hret as ([qs qe] & [as' ae] & offs & Hlq & Hla & Hall & ->).
  exists qs, qe, as', ae, offs. repeat split; [done..|].
  apply find_sublist_positions_bounds in Hlq as ?, Hla as ?; [|done..].
  apply Forall2_fmap_l, Forall2_same_length_lookup.
  split; [done|]. intros i [s e] span Hi Hi'. simplify_eq. simpl.
  destruct (Forall2_lookup_r _ _ _ _ _ Hall Hi) as (doc & Hdoc & Hld).
  rewrite Forall_forall in Hdocs.
  apply find_sublist_positions_bounds in Hld;
    [|apply Hdocs, list_elem_of_lookup; eauto].
  apply doc_attention_half_open; lia.
Qed.

Lemma uniform_attention_nonneg (thread_tokens : tokens) :
  tensor_nonneg (uniform_attention thread_tokens).
Proof.
  unfold tensor_nonneg, uniform_attention.
  constructor; [|constructor]. do 2 apply Forall_replicate.
  unfold Qdiv. apply Qmult_le_0_compat; [done|].
  apply Qinv_le_0_compat. change 0%Q with (inject_Z 0).
  rewrite <- Zle_Qle. lia.
Qed.

(** C1, at a failing input.  The thread [qqddaa] holds the query [qq] at
    span (0, 1), the document [dd] at (2, 3) and the answer [aa] at (4, 5);
    the model attends uniformly, every entry being 1/6, and the total
    weight is 6.  Summing over the inclusive spans gives each of the four
    masses the weight 4/6 and the score 4/9.  The code slices
    [start:end] with the inclusive [end], which drops the last token of
    every span: it returns 1/9, the score of the spans (0, 0), (2, 2) and
    (4, 4). *)
Theorem compute_attention_skips_last_token :
  let t := uniform_attention (char_tokenizer "qqddaa") in
  located char_tokenizer "qqddaa" "qq" (0, 1) ∧
  located char_tokenizer "qqddaa" "aa" (4, 5) ∧
  located char_tokenizer "qqddaa" "dd" (2, 3) ∧
  (Score t true (0, 1)%Z (4, 5)%Z (2, 3)%Z == 4 # 9)%Q ∧
  ∃ score,
    compute_attention env_unset char_tokenizer uniform_attention
      "qqddaa" "qq" ["dd"%string] "aa" = Return [score] ∧
    (score == 1 # 9)%Q ∧
    (score == Score t true (0, 0)%Z (4, 4)%Z (2, 2)%Z)%Q.
Proof.
  intros t.
  split; [vm_compute; reflexivity|]. split; [vm_compute; reflexivity|].
  split; [vm_compute; reflexivity|]. split; [vm_compute; reflexivity|].
  eexists. split; [cbv; reflexivity|]. split; vm_compute; reflexivity.
Qed.

(** C9: when the tokens of the query do not occur contiguously in the
    tokens of the thread, [compute_attention] raises
    [ValueError("Sublist not found")] whatever the environment says; and
    when [attribute_include_query] is ["False"] the located query span
    would not have entered any score. *)
Theorem compute_attention_query_not_found (getenv : environ)
    (encode : string → tokens) (attention : tokens → tensor)
    (thread query : string) (context : list string) (answer : string) :
  (¬ ∃ pre post, encode thread = pre ++ encode query ++ post) →
  compute_attention getenv encode attention thread query context answer
    = Raise (ValueError "Sublist not found") ∧
  (getenv "attribute_include_query"%string = Some "False"%string →
   ∀ t qs qe qs' qe' as' ae total span,
     doc_attention t (include_query_of getenv) qs qe as' ae total span =
     doc_attention t (include_query_of getenv) qs' qe' as' ae total span).
Proof.
  intros Habsent. split.
  - unfold compute_attention.
    by rewrite (find_sublist_positions_absent_Raise _ _ Habsent).
  - intros Hflag *. unfold include_query_of. by rewrite decide_True by done.
Qed.

Lemma compute_attention_query_not_found_witness :
  compute_attention env_no_query char_tokenizer uniform_attention
    "ddaa" "q" ["dd"%string] "aa" = Raise (ValueError "Sublist not found") ∧
  (env_no_query "attribute_include_query"%string = Some "False"%string →
   ∀ t qs qe qs' qe' as' ae total span,
     doc_attention t (include_query_of env_no_query) qs qe as' ae total span =
     doc_attention t (include_query_of env_no_query) qs' qe' as' ae total span).
Proof.
  apply (compute_attention_query_not_found env_no_query char_tokenizer
           uniform_attention "ddaa" "q" ["dd"%string] "aa").
  apply (find_sublist_positions_Raise_absent _ _ (ValueError "Sublist not found")).
  vm_compute. reflexivity.
Defined.

Section score_claims.
Local Open Scope Q_scope.
Context (getenv : environ) {Embedding : Type}.
Context (embed : string → Embedding).
Context (cosine_similarity : Embedding → Embedding → Q).
Context (encode : string → tokens) (attention : tokens → tensor).

(** C2 (as amended): when the similarity total is positive,
    [compute_similarity] returns one score per document, each non-negative
    when every raw similarity is; when the total attention weight is
    positive, a returning [compute_attention] yields one score per
    document, non-negative when every attention weight is.  Nothing is
    said of the sum of the scores of either attributor. *)
Theorem attribution_scores_shape (thread query : string)
    (context : list string) (answer : string) (scores : list Q) :
  let RawScores :=
    map (RawSim embed cosine_similarity (include_query_of getenv) query answer)
        context in
  let sims :=
    compute_similarity getenv embed cosine_similarity query context answer in
  (0 < fold_left Qplus RawScores 0 →
     length sims = length context ∧
     (Forall (λ r, 0 <= r) RawScores → Forall (λ s, 0 <= s) sims)) ∧
  (0 < tensor_sum (attention (encode thread)) →
   compute_attention getenv encode attention thread query context answer
     = Return scores →
     length scores = length context ∧
     (tensor_nonneg (attention (encode thread)) →
      Forall (λ s, 0 <= s) scores)).
Proof.
  intros RawScores sims. split.
  - rewrite <- foldl_fold_left.
    change (foldl Qplus 0 RawScores) with (py_sum RawScores).
    intros Hpos. split; [apply length_compute_similarity|].
    subst sims. rewrite compute_similarity_eq. cbv zeta. fold RawScores.
    rewrite (proj2 (Qgtb_true _ 0) Hpos).
    intros Hnn. eapply Forall_impl; [by apply normalized_range|].
    simpl. by intros s [? _].
  - intros _ Hret. split; [by eapply length_compute_attention|].
    intros Hnn.
    apply compute_attention_Return in Hret as (qs & as' & offs & _ & _ & _ & ->).
    apply Forall_fmap, Forall_forall. intros span _. simpl.
    by apply doc_attention_nonneg.
Qed.


(** C4: when the similarity total is not positive, in whatever
    arithmetic, [compute_similarity] returns the raw scores unchanged; when
    the total attention weight is not positive, the attention weights
    being non-negative as attention weights are, a returning
    [compute_attention] yields for every document its combined attention
    [doc_attention_sum], which is 0. *)
Theorem degenerate_fallback (ar : arith)
    (similarity : Embedding → Embedding → num ar)
    (thread query : string)
    (context : list string) (answer : string) (scores : list Q) :
  let RawScores :=
    map (RawSim_with ar embed similarity (include_query_of getenv) query answer)
        context in
  let TotalSim := fold_left (add ar) RawScores (zero ar) in
  let t := attention (encode thread) in
  (gt ar TotalSim (zero ar) = false →
     compute_similarity_with ar getenv embed similarity query context answer
       = RawScores) ∧
  (tensor_nonneg t → tensor_sum t <= 0 →
   compute_attention getenv encode attention thread query context answer
     = Return scores →
     ∃ query_span answer_span context_offsets,
       located encode thread query query_span ∧
       located encode thread answer answer_span ∧
       Forall2 (located encode thread) context context_offsets ∧
       Forall2 (λ score span,
                  score == doc_attention_sum t (include_query_of getenv)
                             query_span.1 query_span.2
                             answer_span.1 answer_span.2 span)
               scores context_offsets ∧
       scores = replicate (length context) 0).
Proof.
  intros RawScores TotalSim t. split.
  - intros Hle. rewrite compute_similarity_with_eq. cbv zeta. unfold sum_with.
    rewrite foldl_fold_left. fold RawScores. fold TotalSim. by rewrite Hle.
  - intros Hnn Hle Hret.
    apply compute_attention_Return
      in Hret as (qs & as' & offs & Hq & Ha & Hall & ->).
    exists qs, as', offs. fold t. repeat split; [done..| |].
    + apply Forall2_fmap_l, Forall_Forall2_diag, Forall_forall.
      intros span _. unfold doc_attention.
      rewrite (proj2 (Qgtb_false _ 0) Hle).
      symmetry. by apply doc_attention_sum_zero.
    + rewrite (Forall2_length _ _ _ Hall).
      clear Hall. induction offs as [|span offs IH]; [done|].
      simpl. rewrite <- IH. f_equal. unfold doc_attention.
      by rewrite (proj2 (Qgtb_false _ 0) Hle).
Qed.
End score_claims.

(** ** Worked inputs for the score claims *)

Lemma attribution_scores_shape_witness :
  let t := uniform_attention (char_tokenizer "qqddeeaa") in
  let scores :=
    [doc_attention t true 0 1 6 7 (tensor_sum t) (2, 3);
     doc_attention t true 0 1 6 7 (tensor_sum t) (4, 5)] in
  let sims :=
    compute_similarity env_unset plane_embed int_cosine
      "qq" ["dd"; "ee"]%string "aa" in
  compute_attention env_unset char_tokenizer uniform_attention
    "qqddeeaa" "qq" ["dd"; "ee"]%string "aa" = Return scores ∧
  (length sims = 2%nat ∧ Forall (λ s, 0 <= s)%Q sims) ∧
  (length scores = 2%nat ∧ Forall (λ s, 0 <= s)%Q scores).
Proof.
  intros t scores sims.
  assert (Hret : compute_attention env_unset char_tokenizer uniform_attention
                   "qqddeeaa" "qq" ["dd"; "ee"]%string "aa" = Return scores)
    by (vm_compute; reflexivity).
  split; [exact Hret|].
  destruct (attribution_scores_shape env_unset plane_embed int_cosine
              char_tokenizer uniform_attention
              "qqddeeaa" "qq" ["dd"; "ee"]%string "aa" scores) as [Hsim Hatt].
  split.
  - destruct Hsim as (Hlen & Hnn); [eval_Q|].
    split; [exact Hlen|].
    apply Hnn. repeat constructor; eval_Q.
  - destruct (Hatt ltac:(eval_Q) Hret) as [Hlen Hnn].
    split; [exact Hlen|]. apply Hnn, uniform_attention_nonneg.
Defined.

(** C2 as stated fails.  On the thread [qqddaa] with uniform attention the
    total weight is 6 and [compute_attention] returns the single score
    1/9 (4/9 were the last token of each span counted), which does not sum
    to 1.  With the answer pointing east and the documents [dd] and [ee]
    at cosines 4/5 and -3/5 to it, the similarity total is 1/5 and
    [compute_similarity] returns the scores 4 and -3, one of them
    negative.  And in binary32, at the cosines 0.35, 0.65 and -0.95, the
    total is positive and the returned scores add up to 524287/524288, both
    in binary32 and exactly, not to 1. *)
Lemma attribution_scores_not_normalized :
  (let t := uniform_attention (char_tokenizer "qqddaa") in
   (0 < tensor_sum t)%Q ∧
   (¬ (Score t true (0, 1)%Z (4, 5)%Z (2, 3)%Z == 1)%Q) ∧
   ∃ scores,
     compute_attention env_unset char_tokenizer uniform_attention
       "qqddaa" "qq" ["dd"%string] "aa" = Return scores ∧
     ¬ (py_sum scores == 1)%Q) ∧
  (let RawScores :=
     map (RawSim plane_embed int_cosine (include_query_of env_no_query)
            "qq" "aa") ["dd"; "ee"]%string in
   (0 < py_sum RawScores)%Q ∧
   ∃ s1 s2,
     compute_similarity env_no_query plane_embed int_cosine
       "qq" ["dd"; "ee"]%string "aa" = [s1; s2] ∧
     (s1 == 4)%Q ∧ (s2 == -3)%Q ∧ (s2 < 0)%Q) ∧
  (let context := ["0.35"; "0.65"; "-0.95"]%string in
   let RawScores :=
     map (RawSim_with binary32 id (stated_cosine 24 128)
            (include_query_of env_no_query) "query" "answer") context in
   let scores :=
     compute_similarity_with binary32 env_no_query id (stated_cosine 24 128)
       "query" context "answer" in
   gt binary32 (fold_left (add binary32) RawScores (zero binary32))
      (zero binary32) = true ∧
   (SF2Q (fold_left (add binary32) scores (zero binary32))
      == 524287 # 524288)%Q ∧
   (fold_left Qplus (map SF2Q scores) 0 == 524287 # 524288)%Q ∧
   ¬ (524287 # 524288 == 1)%Q).
Proof.
  split; [|split].
  - intros t. split; [eval_Q|]. split; [eval_Q|].
    eexists. split; [cbv; reflexivity|]. eval_Q.
  - intros RawScores. split; [eval_Q|].
    do 2 eexists. split; [cbv; reflexivity|]. repeat split; eval_Q.
  - cbv zeta. repeat split; eval_Q.
Qed.



Lemma zero_attention_nonneg (thread_tokens : tokens) :
  tensor_nonneg (zero_attention thread_tokens).
Proof.
  unfold tensor_nonneg, zero_attention.
  constructor; [|constructor]. by do 2 apply Forall_replicate.
Qed.

Lemma degenerate_fallback_witness :
  let t := zero_attention (char_tokenizer "qq-0.95aa") in
  compute_similarity_with binary32 env_no_query id (stated_cosine 24 128)
    "qq" ["-0.95"%string] "aa"
  = map (RawSim_with binary32 id (stated_cosine 24 128)
           (include_query_of env_no_query) "qq" "aa") ["-0.95"%string] ∧
  ∃ query_span answer_span context_offsets,
    located char_tokenizer "qq-0.95aa" "qq" query_span ∧
    located char_tokenizer "qq-0.95aa" "aa" answer_span ∧
    Forall2 (located char_tokenizer "qq-0.95aa") ["-0.95"%string]
            context_offsets ∧
    Forall2 (λ score span,
               score == doc_attention_sum t (include_query_of env_no_query)
                          query_span.1 query_span.2
                          answer_span.1 answer_span.2 span)%Q
            [0%Q] context_offsets ∧
    [0%Q] = replicate (length ["-0.95"%string]) 0%Q.
Proof.
  intros t.
  destruct (degenerate_fallback env_no_query id char_tokenizer
              zero_attention binary32 (stated_cosine 24 128)
              "qq-0.95aa" "qq" ["-0.95"%string] "aa" [0%Q]) as [Hsim Hatt].
  split.
  - apply Hsim. vm_compute. reflexivity.
  - apply Hatt; [apply zero_attention_nonneg | eval_Q | vm_compute; reflexivity].
Defined.

(** * Further properties of the span locator *)

(** X1: A returned span is sound: it starts at an occurrence of the part, lies
    inside the thread, ends [len(part) - 1] after its start, and slicing
    the thread up to and including its end gives back the part. *)
Theorem find_sublist_positions_sound (H N : tokens) (s e : Z) :
  find_sublist_positions H N = Return (s, e) →
  0 ≤ s ∧ e = s + len N - 1 ∧ e < len H ∧
  slice H s (e + 1) = N ∧ occurs_at H N s.
Proof.
  intros Hfind.
  destruct (find_sublist_positions_spec H N) as [(i & Hr & Hi & _) | [Hr _]];
    rewrite Hr in Hfind; [|done].
  injection Hfind as <- <-.
  pose proof (occurs_at_in_range _ _ _ Hi).
  destruct (occurs_at_slice _ _ _ Hi) as [_ Hs].
  repeat split; [lia | lia | | done].
  by replace (i + len N - 1 + 1) with (i + len N) by lia.
Qed.

Lemma find_sublist_positions_sound_witness :
  0 ≤ 1 ∧ 2 = 1 + len [6; 7] - 1 ∧ 2 < len [5; 6; 7; 6; 7] ∧
  slice [5; 6; 7; 6; 7] 1 (2 + 1) = [6; 7] ∧
  occurs_at [5; 6; 7; 6; 7] [6; 7] 1.
Proof.
  apply (find_sublist_positions_sound [5; 6; 7; 6; 7] [6; 7] 1 2).
  reflexivity.
Defined.

(** X2: The empty part is found in every thread, also in the empty one, at
    the span [(0, -1)], whose end lies before its start. *)
Theorem find_sublist_positions_empty_part (H : tokens) :
  find_sublist_positions H [] = Return (0, -1).
Proof.
  destruct (find_sublist_positions_spec H []) as [(i & Hr & Hi & Hmin) | [_ Hnone]];
    [|by destruct (Hnone 0 (occurs_at_nil H))].
  pose proof (Hmin 0 (occurs_at_nil H)).
  pose proof (occurs_at_in_range _ _ _ Hi).
  by replace i with 0 in Hr by lia.
Qed.

(** X3: A part longer than the thread is never searched for: the loop runs no
    iteration and the call raises. *)
Theorem find_sublist_positions_longer_part (H N : tokens) :
  len H < len N →
  find_sublist_positions H N = Raise (ValueError "Sublist not found").
Proof.
  intros Hlen. unfold find_sublist_positions.
  by replace (Z.to_nat (len H - len N + 1)) with 0%nat by lia.
Qed.

Lemma find_sublist_positions_longer_part_witness :
  find_sublist_positions [5] [5; 6] = Raise (ValueError "Sublist not found").
Proof.
  apply (find_sublist_positions_longer_part [5] [5; 6]). simpl. lia.
Defined.

(** X4: A thread that begins with the part has it located at offset 0; in
    particular a thread is located in itself at [(0, len - 1)]. *)
Theorem find_sublist_positions_prefix (N post : tokens) :
  find_sublist_positions (N ++ post) N = Return (0, len N - 1) ∧
  find_sublist_positions N N = Return (0, len N - 1).
Proof.
  assert (Hpre : ∀ post', find_sublist_positions (N ++ post') N
                          = Return (0, len N - 1)).
  { intros post'.
    assert (Hocc : occurs_at (N ++ post') N 0) by (by exists [], post').
    destruct (find_sublist_positions_spec (N ++ post') N)
      as [(i & Hr & Hi & Hmin) | [_ Hnone]]; [|by destruct (Hnone 0)].
    pose proof (Hmin 0 Hocc). pose proof (occurs_at_in_range _ _ _ Hi).
    by replace i with 0 in Hr by lia. }
  split; [apply Hpre|]. specialize (Hpre []). by rewrite app_nil_r in Hpre.
Qed.

(** X5: Tokens appended to the thread do not move a located part: the span
    found in the thread is the span found in the longer thread. *)
Theorem find_sublist_positions_append (H N extra : tokens) (span : Z * Z) :
  find_sublist_positions H N = Return span →
  find_sublist_positions (H ++ extra) N = Return span.
Proof.
  intros Hfind.
  destruct (find_sublist_positions_spec H N) as [(i & Hr & Hi & Hmin) | [Hr _]];
    rewrite Hr in Hfind; [|done].
  injection Hfind as <-.
  assert (Hocc : occurs_at (H ++ extra) N i).
  { destruct Hi as (pre & post & -> & <-). exists pre, (post ++ extra).
    by rewrite <- !app_assoc. }
  destruct (find_sublist_positions_spec (H ++ extra) N)
    as [(j & Hr' & Hj & Hmin') | [_ Hnone]]; [|by destruct (Hnone i)].
  pose proof (Hmin' i Hocc) as Hji.
  enough (i ≤ j) by (by replace j with i in Hr' by lia).
  apply Hmin. destruct N as [|x N].
  { pose proof (occurs_at_in_range _ _ _ Hj).
    pose proof (occurs_at_in_range _ _ _ Hi).
    replace j with 0; [apply occurs_at_nil|].
    pose proof (Hmin' 0 (occurs_at_nil _)). lia. }
  pose proof (occurs_at_in_range _ _ _ Hi) as Hir.
  destruct (occurs_at_slice _ _ _ Hj) as [Hj0 Hs].
  apply slice_occurs_at; [done | | done].
  rewrite slice_nonneg in Hs |- * by lia.
  rewrite <- Hs at 2. rewrite drop_app_le by lia.
  rewrite take_app_le; [done|]. rewrite length_drop. lia.
Qed.

Lemma find_sublist_positions_append_witness :
  find_sublist_positions ([5; 6; 7] ++ [6; 7; 8]) [6; 7] = Return (1, 2).
Proof.
  apply (find_sublist_positions_append [5; 6; 7] [6; 7] [6; 7; 8] (1, 2)).
  reflexivity.
Defined.

(** * Further properties of the attention attributor *)

Section attention_more.
Context (encode : string → tokens) (attention : tokens → tensor).
Implicit Types (getenv : environ) (thread query answer : string).
Implicit Types (context : list string) (scores : list Q).

Lemma located_occurs thread part :
  (∃ pre post, encode thread = pre ++ encode part ++ post) →
  ∃ span, located encode thread part span.
Proof.
  intros (pre & post & Heq). unfold located.
  destruct (find_sublist_positions_spec (encode thread) (encode part))
    as [(i & Hr & _) | [_ Hnone]]; [by eexists|].
  destruct (Hnone (len pre)). by exists pre, post.
Qed.

Lemma located_all_occur thread context :
  Forall (λ doc, ∃ pre post, encode thread = pre ++ encode doc ++ post) context →
  ∃ context_offsets, Forall2 (located encode thread) context context_offsets.
Proof.
  induction 1 as [|doc context Hdoc _ [offs IH]]; [by exists []|].
  apply located_occurs in Hdoc as [span Hspan].
  exists (span :: offs). by constructor.
Qed.

Lemma located_functional thread context offs1 offs2 :
  Forall2 (located encode thread) context offs1 →
  Forall2 (located encode thread) context offs2 → offs1 = offs2.
Proof.
  intros H1. revert offs2. induction H1 as [|doc span1 context offs1 Hs1 _ IH];
    intros offs2 H2; inversion H2 as [|? span2 ? offs2' Hs2 H2']; subst; [done|].
  unfold located in *. rewrite Hs1 in Hs2. injection Hs2 as <-.
  f_equal. by apply IH.
Qed.

Lemma context_offsets_loop_located (thread_tokens : tokens) context acc spans :
  Forall2 (λ part span,
             find_sublist_positions thread_tokens (encode part) = Return span)
          context spans →
  context_offsets_loop encode thread_tokens context acc = Return (acc ++ spans).
Proof.
  intros Hall. revert acc.
  induction Hall as [|part span context spans Hfind _ IH]; intros acc; simpl.
  - by rewrite app_nil_r.
  - rewrite Hfind. simpl. rewrite IH. by rewrite <- app_assoc.
Qed.

Lemma context_offsets_loop_absent (thread_tokens : tokens) context acc :
  Exists (λ part, ¬ ∃ pre post, thread_tokens = pre ++ encode part ++ post)
         context →
  context_offsets_loop encode thread_tokens context acc
    = Raise (ValueError "Sublist not found").
Proof.
  intros Hex. revert acc.
  induction Hex as [part context Habs|part context _ IH]; intros acc; simpl.
  - by rewrite (find_sublist_positions_absent_Raise _ _ Habs).
  - destruct (find_sublist_positions_spec thread_tokens (encode part))
      as [(i & -> & _) | [-> _]]; simpl; [apply IH | done].
Qed.

Lemma occurs_or_absent (H N : tokens) :
  (∃ pre post, H = pre ++ N ++ post) ∨ ¬ (∃ pre post, H = pre ++ N ++ post).
Proof.
  destruct (find_sublist_positions_spec H N) as [(i & _ & Hi & _) | [Hr _]].
  - left. destruct Hi as (pre & post & ? & _). by exists pre, post.
  - right. by eapply find_sublist_positions_Raise_absent.
Qed.

Lemma absent_some (thread_tokens : tokens) context :
  ¬ Forall (λ doc, ∃ pre post, thread_tokens = pre ++ encode doc ++ post)
           context →
  Exists (λ doc, ¬ ∃ pre post, thread_tokens = pre ++ encode doc ++ post)
         context.
Proof.
  induction context as [|doc context IH]; intros Hnot; [by destruct Hnot|].
  destruct (occurs_or_absent thread_tokens (encode doc)) as [Hocc|Habs];
    [|by left].
  right. apply IH. intros Hall. apply Hnot. by constructor.
Qed.

(** A call whose query, answer and documents are located at the given
    spans returns [doc_attention] of each document span, in order. *)
Lemma compute_attention_located getenv thread query context answer
    (query_span answer_span : Z * Z) (context_offsets : list (Z * Z)) :
  located encode thread query query_span →
  located encode thread answer answer_span →
  Forall2 (located encode thread) context context_offsets →
  compute_attention getenv encode attention thread query context answer =
  Return
    (map (doc_attention (attention (encode thread)) (include_query_of getenv)
            query_span.1 query_span.2 answer_span.1 answer_span.2
            (tensor_sum (attention (encode thread))))
         context_offsets).
Proof.
  unfold located. intros Hq Ha Hall. unfold compute_attention.
  rewrite Hq, Ha. destruct query_span, answer_span. simpl.
  rewrite (context_offsets_loop_located _ _ [] context_offsets Hall). simpl.
  by rewrite (foldl_append _ context_offsets []).
Qed.

(** X6: When the tokens of the query, of the answer and of every document occur
    in the tokens of the thread, the call returns, with one score per
    document. *)
Theorem compute_attention_returns getenv thread query context answer :
  (∃ pre post, encode thread = pre ++ encode query ++ post) →
  (∃ pre post, encode thread = pre ++ encode answer ++ post) →
  Forall (λ doc, ∃ pre post, encode thread = pre ++ encode doc ++ post) context →
  ∃ scores,
    compute_attention getenv encode attention thread query context answer
      = Return scores ∧
    length scores = length context.
Proof.
  intros [qspan Hq]%located_occurs [aspan Ha]%located_occurs
         [offs Hall]%located_all_occur.
  eexists. split; [by apply compute_attention_located|].
  rewrite length_map. symmetry. by eapply Forall2_length.
Qed.

(** X7: The call raises, always [ValueError("Sublist not found")], exactly when
    the tokens of the query, of the answer or of some document do not
    occur in the tokens of the thread; there is no partial result. *)
Theorem compute_attention_raises_iff getenv thread query context answer :
  compute_attention getenv encode attention thread query context answer
    = Raise (ValueError "Sublist not found")
  ↔ ¬ ((∃ pre post, encode thread = pre ++ encode query ++ post) ∧
       (∃ pre post, encode thread = pre ++ encode answer ++ post) ∧
       Forall (λ doc, ∃ pre post, encode thread = pre ++ encode doc ++ post)
              context).
Proof.
  split.
  - intros Hraise ([qspan Hq]%located_occurs & [aspan Ha]%located_occurs
                   & [offs Hall]%located_all_occur).
    by rewrite (compute_attention_located getenv thread query context answer
                  qspan aspan offs Hq Ha Hall) in Hraise.
  - intros Hnot. unfold compute_attention.
    destruct (find_sublist_positions_spec (encode thread) (encode query))
      as [(qi & -> & Hqi & _) | [-> _]]; simpl; [|done].
    destruct (find_sublist_positions_spec (encode thread) (encode answer))
      as [(ai & -> & Hai & _) | [-> _]]; simpl; [|done].
    rewrite context_offsets_loop_absent; [done|].
    apply absent_some. intros Hall. apply Hnot.
    split; [by destruct Hqi as (pre & post & ? & _); exists pre, post|].
    split; [by destruct Hai as (pre & post & ? & _); exists pre, post|done].
Qed.

(** X8: Scoring composes over the context: the scores of two contexts put one
    after the other are the scores of the first followed by the scores of
    the second. *)
Theorem compute_attention_app getenv thread query answer
    (context1 context2 : list string) (scores1 scores2 : list Q) :
  compute_attention getenv encode attention thread query context1 answer
    = Return scores1 →
  compute_attention getenv encode attention thread query context2 answer
    = Return scores2 →
  compute_attention getenv encode attention thread query
    (context1 ++ context2) answer = Return (scores1 ++ scores2).
Proof.
  intros (qs1 & as1 & offs1 & Hq1 & Ha1 & Hall1 & ->)%compute_attention_Return
         (qs2 & as2 & offs2 & Hq2 & Ha2 & Hall2 & ->)%compute_attention_Return.
  unfold located in Hq1, Hq2, Ha1, Ha2.
  rewrite Hq1 in Hq2. rewrite Ha1 in Ha2.
  injection Hq2 as <-. injection Ha2 as <-.
  rewrite <- map_app. apply compute_attention_located; [done..|].
  by apply Forall2_app.
Qed.

(** X9: The score of a document does not depend on the other documents of the
    context nor on its place among them: it is the score the document gets
    as the only document. *)
Theorem compute_attention_score_of_document getenv thread query context answer
    scores (i : nat) (doc : string) :
  compute_attention getenv encode attention thread query context answer
    = Return scores →
  context !! i = Some doc →
  ∃ score,
    scores !! i = Some score ∧
    compute_attention getenv encode attention thread query [doc] answer
      = Return [score].
Proof.
  intros (qs & as' & offs & Hq & Ha & Hall & ->)%compute_attention_Return Hdoc.
  destruct (Forall2_lookup_l _ _ _ _ _ Hall Hdoc) as (span & Hspan & Hloc).
  eexists. split; [by rewrite list_lookup_fmap, Hspan|].
  by rewrite (compute_attention_located getenv thread query [doc] answer
                qs as' [span] Hq Ha) by (by constructor).
Qed.

(** X10: A document of exactly one token always gets the score 0, whatever the
    attention weights. *)
Theorem compute_attention_single_token_document getenv thread query context
    answer scores (i : nat) (doc : string) :
  compute_attention getenv encode attention thread query context answer
    = Return scores →
  context !! i = Some doc →
  length (encode doc) = 1%nat →
  ∃ score, scores !! i = Some score ∧ (score == 0)%Q.
Proof.
  intros (qs & as' & offs & Hq & Ha & Hall & ->)%compute_attention_Return
         Hdoc Hone.
  destruct (Forall2_lookup_l _ _ _ _ _ Hall Hdoc) as ([s e] & Hspan & Hloc).
  eexists. split; [by rewrite list_lookup_fmap, Hspan|]. simpl.
  unfold located in Hloc.
  destruct (find_sublist_positions_spec (encode thread) (encode doc))
    as [(j & Hr & _) | [Hr _]]; rewrite Hr in Hloc; [|done].
  injection Hloc as -> <-.
  replace (s + len (encode doc) - 1) with s by lia.
  unfold doc_attention.
  destruct (Qgtb _ 0); [|reflexivity].
  rewrite doc_attention_sum_single_token. unfold Qdiv. ring.
Qed.

(** X11: With non-negative attention weights, enabling the query terms never
    lowers a score: each score computed with [attribute_include_query]
    set to ["False"] is at most the score computed with any other
    setting. *)
Theorem compute_attention_include_query_monotone (getenv0 getenv1 : environ)
    thread query context answer (scores0 scores1 : list Q) :
  tensor_nonneg (attention (encode thread)) →
  getenv0 "attribute_include_query"%string = Some "False"%string →
  getenv1 "attribute_include_query"%string ≠ Some "False"%string →
  compute_attention getenv0 encode attention thread query context answer
    = Return scores0 →
  compute_attention getenv1 encode attention thread query context answer
    = Return scores1 →
  Forall2 Qle scores0 scores1.
Proof.
  intros Hnn Hoff Hon
    (qs0 & as0 & offs0 & Hq0 & Ha0 & Hall0 & ->)%compute_attention_Return
    (qs1 & as1 & offs1 & Hq1 & Ha1 & Hall1 & ->)%compute_attention_Return.
  unfold located in Hq0, Hq1, Ha0, Ha1.
  rewrite Hq0 in Hq1. rewrite Ha0 in Ha1.
  injection Hq1 as <-. injection Ha1 as <-.
  rewrite (located_functional _ _ _ _ Hall1 Hall0).
  unfold include_query_of. rewrite decide_True, decide_False by done.
  apply Forall2_fmap, Forall_Forall2_diag, Forall_forall.
  intros [s e] _. unfold doc_attention, doc_attention_sum.
  pose proof (tensor_slice_bounds _ qs0.1 qs0.2 s e Hnn).
  pose proof (tensor_slice_bounds _ s e qs0.1 qs0.2 Hnn).
  destruct (Qgtb _ 0) eqn:Hgt; [|apply Qle_refl].
  apply Qgtb_true in Hgt. apply Qmult_le_compat_r.
  - lra.
  - apply Qlt_le_weak, Qinv_lt_0_compat, Hgt.
Qed.

(** X12: With [attribute_include_query] set to ["False"], two queries that are
    both located in the thread give the same result. *)
Theorem compute_attention_ignores_located_query getenv thread
    (query1 query2 : string) context answer :
  getenv "attribute_include_query"%string = Some "False"%string →
  (∃ pre post, encode thread = pre ++ encode query1 ++ post) →
  (∃ pre post, encode thread = pre ++ encode query2 ++ post) →
  compute_attention getenv encode attention thread query1 context answer =
  compute_attention getenv encode attention thread query2 context answer.
Proof.
  intros Hoff [[qs1 qe1] Hq1]%located_occurs [[qs2 qe2] Hq2]%located_occurs.
  unfold located in *. unfold compute_attention. rewrite Hq1, Hq2. simpl.
  destruct (find_sublist_positions (encode thread) (encode answer))
    as [[as' ae]|e]; simpl; [|done].
  destruct (context_offsets_loop _ _ _ _) as [offs|e]; simpl; [|done].
  unfold include_query_of. by rewrite decide_True by done.
Qed.
End attention_more.

Lemma compute_attention_returns_witness :
  ∃ scores,
    compute_attention env_unset char_tokenizer uniform_attention
      "qqddeeaa" "qq" ["dd"; "ee"]%string "aa" = Return scores ∧
    length scores = 2%nat.
Proof.
  apply (compute_attention_returns char_tokenizer uniform_attention env_unset
           "qqddeeaa" "qq" ["dd"; "ee"]%string "aa").
  - exists [], (char_tokenizer "ddeeaa"). vm_compute. reflexivity.
  - exists (char_tokenizer "qqddee"), []. vm_compute. reflexivity.
  - repeat constructor.
    + exists (char_tokenizer "qq"), (char_tokenizer "eeaa"). vm_compute. reflexivity.
    + exists (char_tokenizer "qqdd"), (char_tokenizer "aa"). vm_compute. reflexivity.
Defined.

Lemma compute_attention_app_witness :
  let t := uniform_attention (char_tokenizer "qqddeeaa") in
  compute_attention env_unset char_tokenizer uniform_attention
    "qqddeeaa" "qq" (["dd"%string] ++ ["ee"%string]) "aa" =
  Return ([doc_attention t true 0 1 6 7 (tensor_sum t) (2, 3)] ++
          [doc_attention t true 0 1 6 7 (tensor_sum t) (4, 5)]).
Proof.
  intros t.
  apply (compute_attention_app char_tokenizer uniform_attention env_unset
           "qqddeeaa" "qq" "aa" ["dd"%string] ["ee"%string]);
    vm_compute; reflexivity.
Defined.

Lemma compute_attention_score_of_document_witness :
  let t := uniform_attention (char_tokenizer "qqddeeaa") in
  ∃ score,
    [doc_attention t true 0 1 6 7 (tensor_sum t) (2, 3);
     doc_attention t true 0 1 6 7 (tensor_sum t) (4, 5)] !! 1%nat = Some score ∧
    compute_attention env_unset char_tokenizer uniform_attention
      "qqddeeaa" "qq" ["ee"%string] "aa" = Return [score].
Proof.
  intros t.
  apply (compute_attention_score_of_document char_tokenizer uniform_attention
           env_unset "qqddeeaa" "qq" ["dd"; "ee"]%string "aa" _ 1 "ee");
    [vm_compute; reflexivity | reflexivity].
Defined.

Lemma compute_attention_single_token_document_witness :
  let t := uniform_attention (char_tokenizer "qqdaa") in
  ∃ score,
    [doc_attention t true 0 1 3 4 (tensor_sum t) (2, 2)] !! 0%nat = Some score ∧
    (score == 0)%Q.
Proof.
  intros t.
  apply (compute_attention_single_token_document char_tokenizer
           uniform_attention env_unset "qqdaa" "qq" ["d"%string] "aa" _ 0 "d");
    [vm_compute; reflexivity | reflexivity | reflexivity].
Defined.

Lemma compute_attention_include_query_monotone_witness :
  let t := uniform_attention (char_tokenizer "qqddeeaa") in
  Forall2 Qle
    [doc_attention t false 0 1 6 7 (tensor_sum t) (2, 3);
     doc_attention t false 0 1 6 7 (tensor_sum t) (4, 5)]
    [doc_attention t true 0 1 6 7 (tensor_sum t) (2, 3);
     doc_attention t true 0 1 6 7 (tensor_sum t) (4, 5)].
Proof.
  intros t.
  apply (compute_attention_include_query_monotone char_tokenizer
           uniform_attention env_no_query env_unset
           "qqddeeaa" "qq" ["dd"; "ee"]%string "aa");
    [apply uniform_attention_nonneg | reflexivity | discriminate
    | vm_compute; reflexivity | vm_compute; reflexivity].
Defined.

Lemma compute_attention_ignores_located_query_witness :
  compute_attention env_no_query char_tokenizer uniform_attention
    "qqddeeaa" "qq" ["dd"; "ee"]%string "aa" =
  compute_attention env_no_query char_tokenizer uniform_attention
    "qqddeeaa" "qd" ["dd"; "ee"]%string "aa".
Proof.
  apply (compute_attention_ignores_located_query char_tokenizer
           uniform_attention env_no_query "qqddeeaa" "qq" "qd").
  - reflexivity.
  - exists [], (char_tokenizer "ddeeaa"). vm_compute. reflexivity.
  - exists (char_tokenizer "q"), (char_tokenizer "deeaa"). vm_compute. reflexivity.
Defined.

(** * Further properties of the embedding attributor *)

Section similarity_more.
Local Open Scope Q_scope.
Context (getenv : environ) {Embedding : Type}.
Context (embed : string → Embedding).
Context (cosine_similarity : Embedding → Embedding → Q).
Implicit Types (query answer : string) (context : list string).

Lemma Qgtb_Qeq (x y z : Q) : x == y → Qgtb x z = Qgtb y z.
Proof. intros Hxy. unfold Qgtb. by rewrite Hxy. Qed.

(** The score at index [i] is the raw score of the document at index [i],
    divided by the total when the total is positive. *)
Lemma compute_similarity_lookup query context answer (i : nat) (doc : string) :
  context !! i = Some doc →
  let raw := RawSim embed cosine_similarity (include_query_of getenv)
               query answer in
  let total := py_sum (map raw context) in
  compute_similarity getenv embed cosine_similarity query context answer !! i
  = Some (if Qgtb total 0 then raw doc / total else raw doc).
Proof.
  intros Hdoc raw total. rewrite compute_similarity_eq. cbv zeta.
  fold raw. fold total. destruct (Qgtb total 0);
    rewrite !list_lookup_fmap, Hdoc; done.
Qed.

(** X14: There is one score per document whatever the total, and no score for
    an empty context. *)
Theorem compute_similarity_length query context answer :
  length (compute_similarity getenv embed cosine_similarity query context answer)
  = length context ∧
  compute_similarity getenv embed cosine_similarity query [] answer = [].
Proof.
  split; [apply length_compute_similarity|].
  apply nil_length_inv. by rewrite length_compute_similarity.
Qed.

(** X15: Normalization never reverses two documents: a document whose raw
    similarity is at most another's gets a score that is at most the
    other's. *)
Theorem compute_similarity_monotone query context answer
    (i j : nat) (doc_i doc_j : string) (score_i score_j : Q) :
  let scores :=
    compute_similarity getenv embed cosine_similarity query context answer in
  let raw := RawSim embed cosine_similarity (include_query_of getenv)
               query answer in
  context !! i = Some doc_i → context !! j = Some doc_j →
  scores !! i = Some score_i → scores !! j = Some score_j →
  raw doc_i <= raw doc_j → score_i <= score_j.
Proof.
  intros scores raw Hi Hj Hsi Hsj Hle. subst scores.
  rewrite (compute_similarity_lookup _ _ _ _ _ Hi) in Hsi.
  rewrite (compute_similarity_lookup _ _ _ _ _ Hj) in Hsj.
  cbv zeta in Hsi, Hsj. fold raw in Hsi, Hsj.
  injection Hsi as <-. injection Hsj as <-.
  destruct (Qgtb (py_sum (map raw context)) 0) eqn:Hgt; [|done].
  apply Qgtb_true in Hgt. unfold Qdiv.
  pose proof (Qinv_lt_0_compat _ Hgt) as Hinv.
  by apply Qmult_le_r.
Qed.

(** X16: A context of a single document: its score is 1 as soon as its raw
    similarity is positive, however small, and the raw similarity itself
    otherwise. *)
Theorem compute_similarity_single_document query (doc : string) answer :
  let raw := RawSim embed cosine_similarity (include_query_of getenv)
               query answer doc in
  ∃ score,
    compute_similarity getenv embed cosine_similarity query [doc] answer
      = [score] ∧
    (0 < raw → score == 1) ∧
    (raw <= 0 → score = raw).
Proof.
  intros raw. rewrite compute_similarity_eq. cbv zeta. simpl map. fold raw.
  assert (Hsum : py_sum [raw] == raw) by (rewrite py_sum_sumQ; unfold sumQ; simpl; ring).
  rewrite (Qgtb_Qeq _ _ 0 Hsum).
  destruct (Qgtb raw 0) eqn:Hgt.
  - apply Qgtb_true in Hgt. eexists. split; [reflexivity|]. split.
    + intros _. rewrite Hsum. field. lra.
    + intros Hle. lra.
  - apply Qgtb_false in Hgt. eexists. split; [reflexivity|]. split.
    + intros Hpos. lra.
    + done.
Qed.

(** X17: With the query terms enabled the query and the answer play the same
    part: exchanging them leaves every score the same. *)
Theorem compute_similarity_query_answer_symmetric query context answer :
  getenv "attribute_include_query"%string ≠ Some "False"%string →
  Forall2 Qeq
    (compute_similarity getenv embed cosine_similarity query context answer)
    (compute_similarity getenv embed cosine_similarity answer context query).
Proof.
  intros Hon. rewrite !compute_similarity_eq. cbv zeta.
  unfold include_query_of. rewrite decide_False by done.
  set (f := RawSim embed cosine_similarity true query answer).
  set (g := RawSim embed cosine_similarity true answer query).
  assert (Hfg : ∀ doc, f doc == g doc)
    by (intros doc; unfold f, g, RawSim; unfold Qdiv; ring).
  assert (Hsum : py_sum (map f context) == py_sum (map g context)).
  { rewrite !py_sum_sumQ. apply sumQ_map_Qeq. intros doc _. apply Hfg. }
  rewrite (Qgtb_Qeq _ _ 0 Hsum). destruct (Qgtb _ 0).
  - rewrite !map_map. apply Forall2_fmap, Forall_Forall2_diag, Forall_forall.
    intros doc _. simpl. by rewrite Hsum, Hfg.
  - apply Forall2_fmap, Forall_Forall2_diag, Forall_forall.
    intros doc _. apply Hfg.
Qed.

End similarity_more.

Lemma compute_similarity_monotone_witness :
  let raw := RawSim plane_embed int_cosine (include_query_of env_unset)
               "qq" "aa" in
  let total := py_sum (map raw ["dd"; "ee"]%string) in
  (raw "ee" / total <= raw "dd" / total)%Q.
Proof.
  intros raw total.
  apply (compute_similarity_monotone env_unset plane_embed int_cosine
           "qq" ["dd"; "ee"]%string "aa" 1 0 "ee" "dd");
    first [reflexivity | vm_compute; reflexivity | vm_compute; discriminate].
Defined.

Lemma compute_similarity_single_document_witness :
  ∃ score,
    compute_similarity env_unset plane_embed int_cosine "qq" ["ee"%string] "aa"
      = [score] ∧
    (score == 1)%Q.
Proof.
  destruct (compute_similarity_single_document env_unset plane_embed int_cosine
              "qq" "ee" "aa") as (score & Hret & Hone & _).
  exists score. split; [exact Hret|]. apply Hone. vm_compute. reflexivity.
Defined.

Lemma compute_similarity_query_answer_symmetric_witness :
  Forall2 Qeq
    (compute_similarity env_unset plane_embed int_cosine
       "qq" ["dd"; "ee"]%string "aa")
    (compute_similarity env_unset plane_embed int_cosine
       "aa" ["dd"; "ee"]%string "qq").
Proof.
  apply (compute_similarity_query_answer_symmetric env_unset plane_embed
           int_cosine "qq" ["dd"; "ee"]%string "aa").
  discriminate.
Defined.

(** * Bounds that hold without any condition on the spans *)

(** X13: With non-negative attention weights every score lies in [0, 4]: each of
    the four blocks added up for a document weighs at most the total, also
    when the spans overlap; with [attribute_include_query] set to
    ["False"] only two blocks are added and the bound is 2. *)
Theorem compute_attention_score_bound (getenv : environ)
    (encode : string → tokens) (attention : tokens → tensor)
    (thread query : string) (context : list string) (answer : string)
    (scores : list Q) :
  tensor_nonneg (attention (encode thread)) →
  compute_attention getenv encode attention thread query context answer
    = Return scores →
  Forall (λ s, 0 <= s <= 4)%Q scores ∧
  (getenv "attribute_include_query"%string = Some "False"%string →
   Forall (λ s, 0 <= s <= 2)%Q scores).
Proof.
  intros Hnn (qs & as' & offs & _ & _ & _ & ->)%compute_attention_Return.
  set (t := attention (encode thread)) in *.
  assert (Hb : ∀ span : Z * Z,
    (0 <= doc_attention t (include_query_of getenv) qs.1 qs.2 as'.1 as'.2
            (tensor_sum t) span
       <= if include_query_of getenv then 4 else 2)%Q).
  { intros [s e]. unfold doc_attention, doc_attention_sum.
    pose proof (tensor_slice_bounds t as'.1 as'.2 s e Hnn).
    pose proof (tensor_slice_bounds t s e as'.1 as'.2 Hnn).
    pose proof (tensor_slice_bounds t qs.1 qs.2 s e Hnn).
    pose proof (tensor_slice_bounds t s e qs.1 qs.2 Hnn).
    destruct (Qgtb (tensor_sum t) 0) eqn:Hgt.
    - apply Qgtb_true in Hgt.
      destruct (include_query_of getenv);
        (split; [apply Qle_shift_div_l | apply Qle_shift_div_r]); lra.
    - destruct (include_query_of getenv); lra. }
  split.
  - apply Forall_fmap, Forall_forall. intros span _. simpl.
    specialize (Hb span). destruct (include_query_of getenv); lra.
  - intros Hoff. apply Forall_fmap, Forall_forall. intros span _. simpl.
    specialize (Hb span). unfold include_query_of in *.
    rewrite decide_True in Hb |- * by done. exact Hb.
Qed.

Lemma compute_attention_score_bound_witness :
  let t := uniform_attention (char_tokenizer "ddd") in
  Forall (λ s, 0 <= s <= 4)%Q
    [doc_attention t true 0 2 0 2 (tensor_sum t) (0, 2)].
Proof.
  intros t.
  apply (compute_attention_score_bound env_unset char_tokenizer
           uniform_attention "ddd" "ddd" ["ddd"%string] "ddd");
    [apply uniform_attention_nonneg | vm_compute; reflexivity].
Defined.

(** X19: When no raw similarity is negative and their total is not positive,
    every returned score is zero. *)
Theorem compute_similarity_all_zero (getenv : environ) {Embedding : Type}
    (embed : string → Embedding)
    (cosine_similarity : Embedding → Embedding → Q)
    (query : string) (context : list string) (answer : string) :
  let RawScores :=
    map (RawSim embed cosine_similarity (include_query_of getenv) query answer)
        context in
  Forall (λ r, 0 <= r)%Q RawScores →
  (py_sum RawScores <= 0)%Q →
  Forall (λ s, s == 0)%Q
    (compute_similarity getenv embed cosine_similarity query context answer).
Proof.
  intros RawScores Hnn Hle. rewrite compute_similarity_eq. cbv zeta.
  fold RawScores. rewrite (proj2 (Qgtb_false _ 0) Hle).
  apply Forall_forall. intros r Hr.
  pose proof (sumQ_elem_le RawScores r Hnn Hr) as Hrle.
  rewrite <- py_sum_sumQ in Hrle.
  rewrite Forall_forall in Hnn. specialize (Hnn r Hr). lra.
Qed.

Lemma compute_similarity_all_zero_witness :
  Forall (λ s, s == 0)%Q
    (compute_similarity env_unset plane_embed int_cosine
       "qq" ["xx"; "yy"]%string "aa").
Proof.
  apply (compute_similarity_all_zero env_unset plane_embed int_cosine
           "qq" ["xx"; "yy"]%string "aa").
  - repeat constructor; vm_compute; discriminate.
  - vm_compute. discriminate.
Defined.
